(** * Tool orchestration: the registry and the execution coordinator

    A shallow embedding of [ToolOrchestrator] (tools/ToolOrchestrator.ts).

    The class is asynchronous JavaScript running on a single-threaded event
    loop.  Every piece of code between two suspension points ([await], a
    timer) runs atomically, so the embedding is a labelled transition system
    whose steps are exactly these atomic pieces:

    - a caller invokes [executeTool] (lines 68-94, up to the first [await]);
    - a 1000 ms retry timer fires and invokes [executeTool] again (87-89);
    - the promise of [tool.validate] settles (103-112);
    - the race between [tool.execute] and the timeout settles (109-136);
    - a caller invokes [registerTool] (63-66).

    Values that the program obtains from its environment (the clock, the
    random execution identifier, the behaviour of the tools) are inputs of
    the steps. *)

From stdpp Require Import gmap strings list pretty sorting.

Local Open Scope Z_scope.

(** ** Data model *)

(** [unknown]: the JSON-like values found in parameter bags and payloads.
    No induction over them is needed. *)
Local Unset Elimination Schemes.
Inductive JsValue : Type :=
  | JsUndefined
  | JsNull
  | JsBoolean (b : bool)
  | JsNumber (z : Z)
  | JsString (s : string)
  | JsArray (l : list JsValue)
  | JsObject (l : list (string * JsValue)).
Local Set Elimination Schemes.

(** [interface ToolParameters { [key: string]: unknown }] *)
Abbreviation ToolParameters := (gmap string JsValue).

(** What a [throw] or a rejected promise carries: an [Error] with its
    message, or any other value. *)
Inductive JsThrown : Type :=
  | ThrownError (msg : string)
  | ThrownOther (v : JsValue).

(** [interface ToolResult].  A result is an object that the tool makes,
    and [executeTool] assigns to its [executionTime] property (line 115).
    The interface says nothing about the object itself, so the record
    carries what that assignment does: [readOnly = None] for an object
    that takes the assignment (an object literal), and [readOnly = Some e]
    for one that refuses it (a frozen object, a property that is not
    writable, also [undefined] in place of an object), where [e] is what
    the assignment throws; in the strict code of a class that is a
    [TypeError]. *)
Record ToolResult : Type := mkToolResult {
  success : bool;
  data : option JsValue;
  message : string;
  executionTime : Z;
  errors : option (list string);
  readOnly : option JsThrown
}.

(** [interface AgentContext] (core/AutonomousAgent.ts); [timestamp] is the
    epoch value of the [Date]. *)
Record AgentContext : Type := mkAgentContext {
  sessionId : string;
  userId : string;
  timestamp : Z;
  metadata : gmap string JsValue
}.

(** How a promise settles. *)
Inductive Settled (A : Type) : Type :=
  | Fulfilled (a : A)
  | RejectedWith (e : JsThrown).
Arguments Fulfilled {A} a.
Arguments RejectedWith {A} e.

(** Tools may be effectful (the built-in ones draw random numbers): the
    settlement of their promises depends on the parameters and on the
    environment, which is passed as an oracle value. *)
Abbreviation Oracle := Z (only parsing).

(** [interface Tool] *)
Record Tool : Type := mkTool {
  name : string;
  description : string;
  category : string;
  version : string;
  execute : ToolParameters → Oracle → Settled ToolResult;
  validate : ToolParameters → Oracle → Settled bool
}.

(** [interface ToolExecution].  Priorities are integers (the default is
    5), so that the comparison function of the sort is consistent;
    [NaN] and other numbers that are not integers are outside the model. *)
Record ToolExecution : Type := mkToolExecution {
  tool : Tool;
  parameters : ToolParameters;
  context : AgentContext;
  priority : Z
}.

(** [config.tools] of an initialised [ConfigManager]
    (core/ConfigManager.ts): both settings are produced by [parseInt],
    hence integers, and the schema does not constrain them further: they
    may be negative, and as large as a number can be.  The orchestrator
    reads them and never assigns them. *)
Record ToolsConfig : Type := mkToolsConfig {
  maxConcurrent : Z;
  timeoutMs : Z
}.

(** The fields of [class ToolOrchestrator]. *)
Record ToolOrchestrator : Type := mkToolOrchestrator {
  config : ToolsConfig;
  tools : gmap string Tool;
  executionQueue : list ToolExecution;
  runningExecutions : gset string
}.

(** *** The suspended computations of the event loop *)

(** Who invoked [executeTool]: a caller of the public method, the retry
    timer of line 87, or [processQueue]. *)
Inductive Origin : Type := ByCaller | ByRetry | ByDrain.

(** An activation of [executeTool] is suspended either at
    [await tool.validate(parameters)] or at [await Promise.race(...)], in
    which case [startTime] has been read. *)
Inductive Phase : Type :=
  | Validating
  | Racing (startTime : Z).

(** The local variables of a suspended activation of [executeTool]. *)
Record Task : Type := mkTask {
  task_executionId : string;
  task_toolName : string;
  task_tool : Tool;
  task_parameters : ToolParameters;
  task_context : AgentContext;
  task_origin : Origin;
  task_phase : Phase
}.

(** The closure of the [setTimeout] callback of lines 87-89. *)
Record Retry : Type := mkRetry {
  retry_toolName : string;
  retry_parameters : ToolParameters;
  retry_context : AgentContext;
  retry_priority : Z
}.

(** The orchestrator object together with the pending work of the event
    loop that refers to it. *)
Record Runtime : Type := mkRuntime {
  orch : ToolOrchestrator;
  tasks : list Task;
  timers : list Retry
}.

(** How an activation of [executeTool] ends for whoever awaits it. *)
Inductive Completion : Type :=
  | Returned (r : ToolResult)
  | Thrown (e : JsThrown).

(** Observable events of a step. *)
Inductive Label : Type :=
  | ExecuteCalled (t : Task)
  | Completed (o : Origin) (toolName : string) (c : AgentContext) (r : Completion).

(** ** [Array.prototype.sort]

    The sort of ECMAScript is stable, and calls [cmp a b < 0] "a before b".
    It is modelled by the stable insertion sort: elements are taken from
    left to right and each is put behind everything it does not strictly
    precede.  For a consistent comparison function the result of a stable
    sort does not depend on the algorithm ([enqueue_unique] below states
    this for the one way in which the orchestrator sorts). *)
Section Sort.
Context {A : Type} (cmp : A → A → Z).

Fixpoint sort_insert (x : A) (l : list A) : list A :=
  match l with
  | [] => [x]
  | y :: l' =>
      if bool_decide (cmp x y < 0) then x :: y :: l'
      else y :: sort_insert x l'
  end.

Definition Array_sort (l : list A) : list A :=
  fold_left (λ acc x, sort_insert x acc) l [].
End Sort.

(** [(a, b) => b.priority - a.priority] *)
Definition byPriority (a b : ToolExecution) : Z := priority b - priority a.

(** ** The orchestrator *)

Definition newToolOrchestrator (c : ToolsConfig) : ToolOrchestrator :=
  {| config := c; tools := ∅; executionQueue := []; runningExecutions := ∅ |}.

Definition newRuntime (c : ToolsConfig) : Runtime :=
  {| orch := newToolOrchestrator c; tasks := []; timers := [] |}.

(** Reading and assigning the fields through the runtime. *)
Abbreviation queue rt := (executionQueue (orch rt)).
Abbreviation running rt := (runningExecutions (orch rt)).
Abbreviation limit rt := (maxConcurrent (config (orch rt))).

Definition setQueue (q : list ToolExecution) (rt : Runtime) : Runtime :=
  {| orch := {| config := config (orch rt); tools := tools (orch rt);
                executionQueue := q;
                runningExecutions := runningExecutions (orch rt) |};
     tasks := tasks rt; timers := timers rt |}.

Definition setRunning (r : gset string) (rt : Runtime) : Runtime :=
  {| orch := {| config := config (orch rt); tools := tools (orch rt);
                executionQueue := executionQueue (orch rt);
                runningExecutions := r |};
     tasks := tasks rt; timers := timers rt |}.

Definition setTasks (ts : list Task) (rt : Runtime) : Runtime :=
  {| orch := orch rt; tasks := ts; timers := timers rt |}.

Definition setTimers (ts : list Retry) (rt : Runtime) : Runtime :=
  {| orch := orch rt; tasks := tasks rt; timers := ts |}.

(** [registerTool] (lines 63-66) *)
Definition registerTool (o : ToolOrchestrator) (t : Tool) : ToolOrchestrator :=
  {| config := config o;
     tools := <[name t := t]> (tools o);
     executionQueue := executionQueue o;
     runningExecutions := runningExecutions o |}.

(** [this.tools.get(toolName)] *)
Definition lookupTool (o : ToolOrchestrator) (toolName : string) : option Tool :=
  tools o !! toolName.

(** [this.runningExecutions.size >= this.config.tools.maxConcurrent] *)
Definition atCapacity (rt : Runtime) : bool :=
  bool_decide (limit rt ≤ Z.of_nat (size (running rt))).

(** Lines 82-83: [push] then [sort]. *)
Definition enqueue (q : list ToolExecution) (e : ToolExecution) : list ToolExecution :=
  Array_sort byPriority (q ++ [e]).

(** Lines 82-90: the request joins the queue and a timer is set that will
    call [executeTool] with the same arguments. *)
Definition backlog (rt : Runtime) (t : Tool) (toolName : string)
    (params : ToolParameters) (ctx : AgentContext) (prio : Z) : Runtime :=
  setTimers
    (timers rt ++
       [{| retry_toolName := toolName; retry_parameters := params;
           retry_context := ctx; retry_priority := prio |}])
    (setQueue
       (enqueue (queue rt)
          {| tool := t; parameters := params; context := ctx; priority := prio |})
       rt).

(** Lines 93-103: the identifier joins the running set and the activation
    suspends at [await tool.validate(parameters)]. *)
Definition startExecution (rt : Runtime) (o : Origin) (t : Tool) (toolName : string)
    (params : ToolParameters) (ctx : AgentContext) (eid : string) : Runtime :=
  setTasks
    (tasks rt ++
       [{| task_executionId := eid; task_toolName := toolName; task_tool := t;
           task_parameters := params; task_context := ctx; task_origin := o;
           task_phase := Validating |}])
    (setRunning ({[eid]} ∪ running rt) rt).

(** [executeTool], lines 74-103: from the call to the first [await].
    [eid] is what [generateExecutionId] returns if it is reached. *)
Definition executeTool (rt : Runtime) (o : Origin) (toolName : string)
    (params : ToolParameters) (ctx : AgentContext) (prio : Z) (eid : string)
    : Runtime * list Label :=
  match lookupTool (orch rt) toolName with
  | None =>
      (rt, [Completed o toolName ctx
              (Thrown (ThrownError ("Tool not found: " +:+ toolName)))])
  | Some t =>
      if atCapacity rt then (backlog rt t toolName params ctx prio, [])
      else (startExecution rt o t toolName params ctx eid, [])
  end.

(** [processQueue] (lines 147-159) *)
Definition processQueue (rt : Runtime) (eid : string) : Runtime * list Label :=
  match queue rt with
  | nextExecution :: rest =>
      if bool_decide (Z.of_nat (size (running rt)) < limit rt) then
        executeTool (setQueue rest rt) ByDrain
          (name (tool nextExecution)) (parameters nextExecution)
          (context nextExecution) (priority nextExecution) eid
      else (rt, [])
  | [] => (rt, [])
  end.

(** The [catch] block (lines 125-132). *)
Definition errorText (e : JsThrown) : string :=
  match e with
  | ThrownError m => m
  | ThrownOther _ => "Unknown error"
  end.

Definition failureResult (e : JsThrown) : ToolResult :=
  {| success := false;
     data := None;
     message := "Tool execution failed: " +:+ errorText e;
     executionTime := 0;
     errors := Some [errorText e];
     readOnly := None |}.

(** ** Numbers in template literals

    [`${timeoutMs}`] is [Number::toString] of a number, that is, of a
    double.  An integer stands for the double that is nearest to it, which
    is the integer itself up to 2^53. *)

(** The double nearest to a natural number, ties to even; 2^1024 or more
    is [Infinity]. *)
Definition roundToDouble (n : Z) : Z :=
  let sh := Z.log2 n - 52 in
  if bool_decide (sh ≤ 0) then n
  else
    let q := Z.shiftr n sh in
    let r := Z.land n (Z.ones sh) in
    let half := Z.shiftl 1 (sh - 1) in
    let q' := if bool_decide (half < r) || bool_decide (r = half) && Z.odd q
              then q + 1 else q in
    Z.shiftl q' sh.

(** The decimal with the fewest significant digits that denotes the
    double [x]: for one digit, two digits and so on ([p] is the unit of
    the last digit), the decimals next to [x] below and above are tried;
    of two that denote [x] the nearer one is taken, and the even one when
    they are equally near. *)
Fixpoint shortestFrom (x p : Z) (fuel : nat) : Z :=
  match fuel with
  | O => x
  | S fuel' =>
      let lo := x / p * p in
      let hi := lo + p in
      let okLo := bool_decide (roundToDouble lo = x) in
      let okHi := bool_decide (roundToDouble hi = x) in
      if okLo && okHi then
        if bool_decide (x - lo < hi - x) then lo
        else if bool_decide (hi - x < x - lo) then hi
        else if Z.even (lo / p) then lo else hi
      else if okLo then lo
      else if okHi then hi
      else shortestFrom x (p / 10) fuel'
  end.

Definition shortestDecimal (x : Z) : Z :=
  let nd := String.length (pretty x) in
  shortestFrom x (10 ^ (Z.of_nat nd - 1)) nd.

Definition digitZero : Ascii.ascii :=
  Ascii.Ascii false false false false true true false false.

Fixpoint stripZeros (s : string) : string :=
  match s with
  | EmptyString => EmptyString
  | String a s' =>
      let t := stripZeros s' in
      if bool_decide (t = EmptyString) && bool_decide (a = digitZero)
      then EmptyString else String a t
  end.

(** The notation with an exponent, used from 10^21 on. *)
Definition exponential (c : Z) : string :=
  let e := pretty (Z.of_nat (String.length (pretty c)) - 1) in
  match stripZeros (pretty c) with
  | String d EmptyString => String d ("e+" +:+ e)
  | String d rest => String d ("." +:+ rest +:+ "e+" +:+ e)
  | EmptyString => EmptyString
  end.

Definition Number_toString_abs (n : Z) : string :=
  if bool_decide (n = 0) then "0"
  else
    let x := roundToDouble n in
    if bool_decide (2 ^ 1024 ≤ x) then "Infinity"
    else
      let c := shortestDecimal x in
      if bool_decide (c < 10 ^ 21) then pretty c else exponential c.

Definition Number_toString (n : Z) : string :=
  if bool_decide (n < 0) then "-" +:+ Number_toString_abs (- n)
  else Number_toString_abs n.

(** [createTimeoutPromise] (lines 139-145): a promise that is never
    fulfilled and that the timer rejects. *)
Definition timeoutError (ms : Z) : JsThrown :=
  ThrownError ("Tool execution timeout after " +:+ Number_toString ms +:+ "ms").

Definition createTimeoutPromise (ms : Z) : Settled ToolResult :=
  RejectedWith (timeoutError ms).

(** Line 105. *)
Definition invalidParametersError (toolName : string) : JsThrown :=
  ThrownError ("Invalid parameters for tool: " +:+ toolName).

(** Lines 114-115: [result.executionTime = Date.now() - startTime].  The
    object of the tool is updated in place when it takes the assignment;
    when it does not, the assignment throws inside the [try] block. *)
Definition withExecutionTime (r : ToolResult) (t : Z) : ToolResult :=
  {| success := success r; data := data r; message := message r;
     executionTime := t; errors := errors r; readOnly := readOnly r |}.

Definition assignExecutionTime (r : ToolResult) (t : Z) : JsThrown + ToolResult :=
  match readOnly r with
  | Some e => inl e
  | None => inr (withExecutionTime r t)
  end.

(** The [finally] block (lines 133-136), for the activation [t] at index
    [i] of the task list: first
    [this.runningExecutions.delete(executionId)], *)
Definition release (rt : Runtime) (i : nat) (t : Task) : Runtime :=
  setTasks (delete i (tasks rt))
    (setRunning (running rt ∖ {[task_executionId t]}) rt).

(** then [await this.processQueue()], and only then the value [c] of the
    [try] or [catch] block reaches whoever awaits the activation. *)
Definition finish (rt : Runtime) (i : nat) (t : Task) (c : Completion)
    (eid : string) : Runtime * list Label :=
  let '(rt', ls) := processQueue (release rt i t) eid in
  (rt', ls ++ [Completed (task_origin t) (task_toolName t) (task_context t) c]).

Definition setPhase (t : Task) (ph : Phase) : Task :=
  {| task_executionId := task_executionId t; task_toolName := task_toolName t;
     task_tool := task_tool t; task_parameters := task_parameters t;
     task_context := task_context t; task_origin := task_origin t;
     task_phase := ph |}.

(** Lines 103-112: the promise of [tool.validate(parameters)] settles for
    the activation at index [i]; [now] is the value of [Date.now()].  When
    it is fulfilled with [true], [tool.execute(parameters)] is called and
    the activation suspends at the race. *)
Definition afterValidate (rt : Runtime) (i : nat) (w : Oracle) (now : Z)
    (eid : string) : Runtime * list Label :=
  match tasks rt !! i with
  | Some t =>
      match task_phase t with
      | Validating =>
          match validate (task_tool t) (task_parameters t) w with
          | Fulfilled true =>
              let t' := setPhase t (Racing now) in
              (setTasks (<[i := t']> (tasks rt)) rt, [ExecuteCalled t'])
          | Fulfilled false =>
              finish rt i t
                (Returned (failureResult (invalidParametersError (task_toolName t))))
                eid
          | RejectedWith e => finish rt i t (Returned (failureResult e)) eid
          end
      | Racing _ => (rt, [])
      end
  | None => (rt, [])
  end.

(** Which of the two promises of [Promise.race] settles first. *)
Inductive RaceWinner : Type :=
  | ExecuteSettled (w : Oracle)
  | TimerFired.

(** [Promise.race([tool.execute(parameters), createTimeoutPromise(...)])]
    (lines 109-112) settles as the promise that settles first does. *)
Definition race (cfg : ToolsConfig) (t : Task) (win : RaceWinner)
    : Settled ToolResult :=
  match win with
  | ExecuteSettled w => execute (task_tool t) (task_parameters t) w
  | TimerFired => createTimeoutPromise (timeoutMs cfg)
  end.

(** What the [try] block (lines 114-123) or the [catch] block (lines
    125-132) produces once the race has settled; [elapsed] is
    [Date.now() - startTime].  The [catch] block also receives what the
    assignment of line 115 throws. *)
Definition raceOutcome (cfg : ToolsConfig) (t : Task) (win : RaceWinner)
    (elapsed : Z) : ToolResult :=
  match race cfg t win with
  | Fulfilled result =>
      match assignExecutionTime result elapsed with
      | inr result' => result'
      | inl e => failureResult e
      end
  | RejectedWith e => failureResult e
  end.

(** Lines 109-136: the race settles for the activation at index [i]. *)
Definition afterRace (rt : Runtime) (i : nat) (win : RaceWinner) (now : Z)
    (eid : string) : Runtime * list Label :=
  match tasks rt !! i with
  | Some t =>
      match task_phase t with
      | Racing startTime =>
          finish rt i t
            (Returned (raceOutcome (config (orch rt)) t win (now - startTime)))
            eid
      | Validating => (rt, [])
      end
  | None => (rt, [])
  end.

(** The [setTimeout] callback of lines 87-89 for the [k]-th pending timer. *)
Definition afterRetryTimer (rt : Runtime) (k : nat) (eid : string)
    : Runtime * list Label :=
  match timers rt !! k with
  | Some r =>
      executeTool (setTimers (delete k (timers rt)) rt) ByRetry
        (retry_toolName r) (retry_parameters r) (retry_context r)
        (retry_priority r) eid
  | None => (rt, [])
  end.

(** ** The transition system *)

(** [priority: number = 5] is an optional argument.  Every event that may
    reach [generateExecutionId] carries the identifier it would return. *)
Inductive Event : Type :=
  | CallRegisterTool (t : Tool)
  | CallExecuteTool (toolName : string) (params : ToolParameters)
      (ctx : AgentContext) (prio : option Z) (eid : string)
  | RetryTimerFires (k : nat) (eid : string)
  | ValidateSettles (i : nat) (w : Oracle) (now : Z) (eid : string)
  | RaceSettles (i : nat) (win : RaceWinner) (now : Z) (eid : string).

Definition step (rt : Runtime) (ev : Event) : Runtime * list Label :=
  match ev with
  | CallRegisterTool t =>
      ({| orch := registerTool (orch rt) t; tasks := tasks rt;
          timers := timers rt |}, [])
  | CallExecuteTool toolName params ctx prio eid =>
      executeTool rt ByCaller toolName params ctx (default 5 prio) eid
  | RetryTimerFires k eid => afterRetryTimer rt k eid
  | ValidateSettles i w now eid => afterValidate rt i w now eid
  | RaceSettles i win now eid => afterRace rt i win now eid
  end.

Fixpoint run (rt : Runtime) (evs : list Event) : Runtime * list Label :=
  match evs with
  | [] => (rt, [])
  | ev :: evs' =>
      let '(rt1, ls1) := step rt ev in
      let '(rt2, ls2) := run rt1 evs' in
      (rt2, ls1 ++ ls2)
  end.

(** The states the orchestrator can be in after it was constructed with
    configuration [c]. *)
Inductive reachable (c : ToolsConfig) : Runtime → Prop :=
  | reachable_new : reachable c (newRuntime c)
  | reachable_step rt ev :
      reachable c rt → reachable c (fst (step rt ev)).

(** ** Predicates on states *)

(** The order of the backlog: not lower in priority. *)
Definition notLower (a b : ToolExecution) : Prop := priority b ≤ priority a.

(** The capacity bound of the running set. *)
Definition withinLimit (rt : Runtime) : Prop :=
  Z.of_nat (size (running rt)) ≤ limit rt.

(** The identifier that an event supplies for [generateExecutionId]. *)
Definition eventId (ev : Event) : option string :=
  match ev with
  | CallRegisterTool _ => None
  | CallExecuteTool _ _ _ _ eid => Some eid
  | RetryTimerFires _ eid => Some eid
  | ValidateSettles _ _ _ eid => Some eid
  | RaceSettles _ _ _ eid => Some eid
  end.

(** [generateExecutionId] combines the clock with nine random digits and
    is meant to give every activation an identifier of its own: no two
    events of the sequence supply the same one. *)
Definition freshIds (evs : list Event) : Prop := NoDup (omap eventId evs).

(** What holds of the runtime when the identifiers supplied so far are
    [used]: tools are registered under their names, the tools of queued
    entries are registered, suspended activations hold distinct
    identifiers, these are the members of the running set, and they are
    among the supplied identifiers. *)
Record coherent (used : list string) (rt : Runtime) : Prop := mkCoherent {
  coherent_registry :
    ∀ n t, tools (orch rt) !! n = Some t → name t = n;
  coherent_queue :
    Forall (λ e, is_Some (tools (orch rt) !! name (tool e))) (queue rt);
  coherent_tasks :
    Forall (λ t, task_executionId t ∈ running rt) (tasks rt);
  coherent_distinct : NoDup (task_executionId <$> tasks rt);
  coherent_running :
    ∀ id, id ∈ running rt → id ∈ task_executionId <$> tasks rt;
  coherent_used : ∀ id, id ∈ running rt → id ∈ used
}.

(** Tools are registered under their names, and the tools of the queued
    entries are registered. *)
Definition registered (rt : Runtime) : Prop :=
  (∀ n t, tools (orch rt) !! n = Some t → name t = n) ∧
  Forall (λ e, is_Some (tools (orch rt) !! name (tool e))) (queue rt).

(** A non-empty backlog means that no slot is free. *)
Definition saturated (rt : Runtime) : Prop :=
  queue rt ≠ [] → limit rt ≤ Z.of_nat (size (running rt)).

Definition usedAfter (used : list string) (ev : Event) : list string :=
  match eventId ev with
  | Some eid => eid :: used
  | None => used
  end.

(** The activation that [executeTool] creates for a queued entry. *)
Definition promoted (t : Task) (e : ToolExecution) : Prop :=
  task_toolName t = name (tool e) ∧ task_parameters t = parameters e ∧
  task_context t = context e ∧ task_origin t = ByDrain ∧
  task_phase t = Validating.

(** What a step can do to the queue. *)
Inductive queueChange (rt rt' : Runtime) : Prop :=
  | queue_kept :
      queue rt' = queue rt → queueChange rt rt'
  | queue_joined t params ctx prio :
      atCapacity rt = true →
      queue rt' =
        enqueue (queue rt)
          {| tool := t; parameters := params; context := ctx; priority := prio |} →
      tasks rt' = tasks rt →
      queueChange rt rt'
  | queue_head_promoted e rest t :
      queue rt = e :: rest →
      queue rt' = rest →
      Forall (notLower e) rest →
      last (tasks rt') = Some t →
      promoted t e →
      queueChange rt rt'.

(** A label of the call that [processQueue] makes and does not await. *)
Definition fromDrain (l : Label) : Prop :=
  ∃ toolName ctx r, l = Completed ByDrain toolName ctx r.

(** The labels of the step that ends the activation [t] with result [r]:
    what the drain produced, then the result for whoever awaits [t]. *)
Definition deliversResult (ls : list Label) (t : Task) (r : ToolResult) : Prop :=
  ∃ ls0, ls = ls0 ++ [Completed (task_origin t) (task_toolName t)
                        (task_context t) (Returned r)] ∧
         Forall fromDrain ls0.

(** ** Sample tools and requests

    Tools are pluggable; the ones below are used in the examples.  The
    behaviour of [probeTool] is chosen by the environment: it succeeds,
    reports a failure in its result, throws an [Error], or throws a value
    that is not an [Error]. *)

Definition probeResult (ok : bool) (msg : string) : ToolResult :=
  {| success := ok; data := None; message := msg; executionTime := 0;
     errors := None; readOnly := None |}.

Definition probeTool (toolName : string) : Tool :=
  {| name := toolName;
     description := "Probe";
     category := "testing";
     version := "1.0.0";
     execute := λ _ w,
       if bool_decide (w = 0) then Fulfilled (probeResult true "Probe completed")
       else if bool_decide (w = 1) then Fulfilled (probeResult false "")
       else if bool_decide (w = 2) then RejectedWith (ThrownError "probe crashed")
       else RejectedWith (ThrownOther (JsNumber w));
     validate := λ params _,
       Fulfilled (bool_decide (is_Some (params !! "target"))) |}.

Definition sampleContext (session : string) : AgentContext :=
  {| sessionId := session; userId := "user-1"; timestamp := 0; metadata := ∅ |}.

Definition goodParams : ToolParameters := {[ "target" := JsString "src/" ]}.

(** Timeouts of 50 ms, as in the scenarios of the design; the default
    configuration has 30000 ms. *)
Definition sampleConfig (n : Z) : ToolsConfig :=
  {| maxConcurrent := n; timeoutMs := 50 |}.

Definition defaultConfig (n : Z) : ToolsConfig :=
  {| maxConcurrent := n; timeoutMs := 30000 |}.

Definition callProbe (session : string) (params : ToolParameters)
    (prio : option Z) (eid : string) : Event :=
  CallExecuteTool "probe" params (sampleContext session) prio eid.

(** Three submissions with priorities 1, 5 and 3. *)
Definition burstTrace : list Event :=
  [ CallRegisterTool (probeTool "probe");
    callProbe "A" goodParams (Some 1) "exec_1";
    callProbe "B" goodParams (Some 5) "exec_2";
    callProbe "C" goodParams (Some 3) "exec_3" ].

(** One slot, taken by the request of session A, which is validating. *)
Definition busyRuntime : Runtime :=
  fst (run (newRuntime (sampleConfig 1))
         [ CallRegisterTool (probeTool "probe");
           callProbe "A" goodParams None "exec_1" ]).

(** The same with the request of session A in its race since time 100. *)
Definition racingRuntime : Runtime :=
  fst (step busyRuntime (ValidateSettles 0 0 100 "exec_2")).

(** One slot; session A runs, session B waits, session C waits with a
    higher priority. *)
Definition waitingTrace : list Event :=
  [ CallRegisterTool (probeTool "probe");
    callProbe "A" goodParams None "exec_1";
    callProbe "B" goodParams (Some 1) "exec_2";
    callProbe "C" goodParams (Some 9) "exec_3" ].

Definition waitingRuntime : Runtime :=
  fst (run (newRuntime (sampleConfig 1)) waitingTrace).

(** The activation of session A in [busyRuntime] and in [waitingRuntime],
    and in [racingRuntime]. *)
Definition taskA : Task :=
  {| task_executionId := "exec_1"; task_toolName := "probe";
     task_tool := probeTool "probe"; task_parameters := goodParams;
     task_context := sampleContext "A"; task_origin := ByCaller;
     task_phase := Validating |}.

Definition racingTaskA : Task := setPhase taskA (Racing 100).

(** The queued entries of sessions C and B in [waitingRuntime]. *)
Definition entryC : ToolExecution :=
  {| tool := probeTool "probe"; parameters := goodParams;
     context := sampleContext "C"; priority := 9 |}.

Definition entryB : ToolExecution :=
  {| tool := probeTool "probe"; parameters := goodParams;
     context := sampleContext "B"; priority := 1 |}.


(** [waitingRuntime] after the [finally] block of session A has deleted
    its identifier, before [processQueue]. *)
Definition releasedRuntime : Runtime := release waitingRuntime 0 taskA.

(** One slot and a single submission for session B, made while session A
    runs: A completes at 130 and the drain starts B; B's retry timer fires
    at 1010, while B is still executing; B completes at 1500, and the
    drain starts B again. *)
Definition doubleTrace : list Event :=
  [ CallRegisterTool (probeTool "probe");
    callProbe "A" goodParams None "exec_1";
    ValidateSettles 0 0 1 "exec_2";
    callProbe "B" goodParams None "exec_3";
    RaceSettles 0 (ExecuteSettled 0) 130 "exec_4";
    ValidateSettles 0 0 131 "exec_5";
    RetryTimerFires 0 "exec_6";
    RaceSettles 0 (ExecuteSettled 0) 1500 "exec_7";
    ValidateSettles 0 0 1501 "exec_8" ].

(** Views of a state and of a list of labels, by session. *)
Definition queuedSessions (rt : Runtime) : list string :=
  (λ e, sessionId (context e)) <$> queue rt.

Definition activeSessions (rt : Runtime) : list string :=
  (λ t, sessionId (task_context t)) <$> tasks rt.

Definition executedSessions (ls : list Label) : list string :=
  omap (λ l, match l with
             | ExecuteCalled t => Some (sessionId (task_context t))
             | Completed _ _ _ _ => None
             end) ls.

Definition submittedSessions (evs : list Event) : list string :=
  omap (λ ev, match ev with
              | CallExecuteTool _ _ ctx _ _ => Some (sessionId ctx)
              | _ => None
              end) evs.

Definition isExecuteCalled (l : Label) : bool :=
  match l with ExecuteCalled _ => true | Completed _ _ _ _ => false end.

(** No slot at all: the maximum that [MAX_CONCURRENT_TOOLS=-1] gives. *)
Definition negativeConfig : ToolsConfig := sampleConfig (-1).

(** [waitingRuntime] with the request of session A in its race since time
    100, while the requests of sessions C and B wait in the queue. *)
Definition contendedRuntime : Runtime :=
  fst (step waitingRuntime (ValidateSettles 0 0 100 "exec_4")).

(** The activation that the drain creates for the entry of session C. *)
Definition promotedTaskC : Task :=
  {| task_executionId := "exec_5"; task_toolName := "probe";
     task_tool := probeTool "probe"; task_parameters := goodParams;
     task_context := sampleContext "C"; task_origin := ByDrain;
     task_phase := Validating |}.

(** A tool that hands back a frozen object,
    [Object.freeze({ success: true, message: 'Sealed', executionTime: 0 })];
    the text of the [TypeError] is that of V8. *)
Definition readOnlyError : JsThrown :=
  ThrownError
    "Cannot assign to read only property 'executionTime' of object '#<Object>'".

Definition frozenResult : ToolResult :=
  {| success := true; data := None; message := "Sealed"; executionTime := 0;
     errors := None; readOnly := Some readOnlyError |}.

Definition frozenTool : Tool :=
  {| name := "frozen";
     description := "Returns a frozen result";
     category := "testing";
     version := "1.0.0";
     execute := λ _ _, Fulfilled frozenResult;
     validate := λ _ _, Fulfilled true |}.

(** One slot, taken by a request for [frozenTool] that is in its race
    since time 100. *)
Definition frozenRuntime : Runtime :=
  fst (run (newRuntime (sampleConfig 1))
         [ CallRegisterTool frozenTool;
           CallExecuteTool "frozen" ∅ (sampleContext "A") None "exec_1";
           ValidateSettles 0 0 100 "exec_2" ]).

Definition frozenTask : Task :=
  {| task_executionId := "exec_1"; task_toolName := "frozen";
     task_tool := frozenTool; task_parameters := ∅;
     task_context := sampleContext "A"; task_origin := ByCaller;
     task_phase := Racing 100 |}.

(** One free slot and the probe registered. *)
Definition idleRuntime : Runtime :=
  fst (step (newRuntime (sampleConfig 1)) (CallRegisterTool (probeTool "probe"))).

(** ** JavaScript operations used by the built-in tools

    Strings are sequences of code units below 256, so that [length],
    [substring] and [split] count as the JavaScript operations do. *)

(** [params.key]: the value of the property, [undefined] when it is
    absent. *)
Definition getProperty (params : ToolParameters) (key : string) : JsValue :=
  default JsUndefined (params !! key).

(** [typeof v === 'string'] *)
Definition isString (v : JsValue) : bool :=
  match v with
  | JsString _ => true
  | _ => false
  end.

(** The truth value of [v], as [||] takes it. *)
Definition truthy (v : JsValue) : bool :=
  match v with
  | JsUndefined | JsNull => false
  | JsBoolean b => b
  | JsNumber z => bool_decide (z ≠ 0)
  | JsString s => bool_decide (s ≠ "")
  | JsArray _ | JsObject _ => true
  end.

(** [a || b] *)
Definition orElse (a b : JsValue) : JsValue := if truthy a then a else b.

(** The string that a template literal puts in for [v].  Numbers are
    integers and print as [Number_toString] says; an array prints its
    elements separated by commas, [null] and [undefined] among them as
    nothing. *)
Fixpoint toJsString (v : JsValue) : string :=
  match v with
  | JsUndefined => "undefined"
  | JsNull => "null"
  | JsBoolean b => if b then "true" else "false"
  | JsNumber z => Number_toString z
  | JsString s => s
  | JsArray l =>
      (fix join (l : list JsValue) : string :=
         match l with
         | [] => ""
         | x :: l' =>
             let sx := match x with
                       | JsUndefined | JsNull => ""
                       | _ => toJsString x
                       end in
             match l' with
             | [] => sx
             | _ :: _ => sx +:+ "," +:+ join l'
             end
         end) l
  | JsObject _ => "[object Object]"
  end.

(** The [TypeError] of Node.js for the call [expr.method(...)] when the
    value [v] of [expr] is not a string. *)
Definition methodTypeError (expr method : string) (v : JsValue) : JsThrown :=
  match v with
  | JsUndefined =>
      ThrownError ("Cannot read properties of undefined (reading '" +:+ method +:+ "')")
  | JsNull =>
      ThrownError ("Cannot read properties of null (reading '" +:+ method +:+ "')")
  | _ => ThrownError (expr +:+ "." +:+ method +:+ " is not a function")
  end.

Definition newline : Ascii.ascii := Ascii.Ascii false true false true false false false false.

Fixpoint countNewlines (s : string) : Z :=
  match s with
  | EmptyString => 0
  | String c s' => (if bool_decide (c = newline) then 1 else 0) + countNewlines s'
  end.

(** [s.split('\n').length] *)
Definition splitLinesLength (s : string) : Z := countNewlines s + 1.

(** [Math.floor(Math.random() * n)] for a positive [n]: the next draw is
    taken from the oracle, and the rest of the oracle serves the later
    draws. *)
Definition randomBelow (n : Z) (w : Oracle) : Z * Oracle := (w mod n, w / n).

(** Decimal digits of a natural number, padded with zeros on the left. *)
Fixpoint zeros (n : nat) : string :=
  match n with
  | O => ""
  | S n' => "0" +:+ zeros n'
  end.

Definition padStart (width : nat) (z : Z) : string :=
  let s := pretty z in zeros (width - String.length s) +:+ s.

(** [new Date(t).toISOString()] for a time value [t] in milliseconds since
    the epoch: the proleptic Gregorian calendar in UTC; years outside
    0..9999 are written with a sign and six digits. *)
Definition toISOString (t : Z) : string :=
  let day := t / 86400000 in
  let ms := t mod 86400000 in
  let z := day + 719468 in
  let era := z / 146097 in
  let doe := z mod 146097 in
  let yoe := (doe - doe / 1460 + doe / 36524 - doe / 146096) / 365 in
  let doy := doe - (365 * yoe + yoe / 4 - yoe / 100) in
  let mp := (5 * doy + 2) / 153 in
  let d := doy - (153 * mp + 2) / 5 + 1 in
  let m := if bool_decide (mp < 10) then mp + 3 else mp - 9 in
  let y := yoe + era * 400 + (if bool_decide (m ≤ 2) then 1 else 0) in
  let year :=
    if bool_decide (0 ≤ y ≤ 9999) then padStart 4 y
    else (if bool_decide (y < 0) then "-" else "+") +:+ padStart 6 (Z.abs y) in
  year +:+ "-" +:+ padStart 2 m +:+ "-" +:+ padStart 2 d +:+ "T" +:+
  padStart 2 (ms / 3600000) +:+ ":" +:+ padStart 2 (ms / 60000 mod 60) +:+ ":" +:+
  padStart 2 (ms / 1000 mod 60) +:+ "." +:+ padStart 3 (ms mod 1000) +:+ "Z".

(** ** The built-in tools (lines 174-335)

    Each [execute] draws its random numbers from the oracle in the order in
    which the source evaluates them; [GitHubIntegrationTool] reads the
    clock, which is its oracle. *)

Definition CodeAnalysisTool : Tool :=
  {| name := "code-analysis";
     description := "Analyzes code quality, complexity, and maintainability";
     category := "analysis";
     version := "1.0.0";
     validate := λ params _,
       Fulfilled
         match getProperty params "code" with
         | JsString code => bool_decide (0 < Z.of_nat (String.length code))
         | _ => false
         end;
     execute := λ params w,
       match getProperty params "code" with
       | JsString code =>
           let '(complexity, w1) := randomBelow 10 w in
           let '(maintainabilityIndex, w2) := randomBelow 100 w1 in
           let '(technicalDebt, _) := randomBelow 5 w2 in
           Fulfilled
             {| success := true;
                message := "Code analysis completed";
                data := Some (JsObject
                  [ ("linesOfCode", JsNumber (splitLinesLength code));
                    ("complexity", JsNumber (complexity + 1));
                    ("maintainabilityIndex", JsNumber maintainabilityIndex);
                    ("technicalDebt", JsNumber technicalDebt) ]);
                executionTime := 0;
                errors := None; readOnly := None |}
       | code => RejectedWith (methodTypeError "code" "split" code)
       end |}.

Definition GitHubIntegrationTool : Tool :=
  {| name := "github-integration";
     description := "Integrates with GitHub APIs for repository operations";
     category := "integration";
     version := "1.0.0";
     validate := λ params _,
       Fulfilled (isString (getProperty params "action")
                  && isString (getProperty params "repository"));
     execute := λ params now,
       let action := getProperty params "action" in
       let repository := getProperty params "repository" in
       Fulfilled
         {| success := true;
            message := "GitHub " +:+ toJsString action +:+ " completed for "
                       +:+ toJsString repository;
            data := Some (JsObject
              [ ("action", action);
                ("repository", repository);
                ("timestamp", JsString (toISOString now)) ]);
            executionTime := 0;
            errors := None; readOnly := None |} |}.

Definition DocumentationGeneratorTool : Tool :=
  {| name := "documentation-generator";
     description := "Generates comprehensive documentation from code";
     category := "documentation";
     version := "1.0.0";
     validate := λ params _, Fulfilled (isString (getProperty params "source"));
     execute := λ params _,
       match getProperty params "source" with
       | JsString source =>
           Fulfilled
             {| success := true;
                message := "Documentation generated successfully";
                data := Some (JsObject
                  [ ("generatedDocs",
                     JsString ("# Generated Documentation" +:+ String newline ""
                               +:+ String newline "" +:+ "Based on source: "
                               +:+ String.substring 0 100 source +:+ "..."));
                    ("format",
                     orElse (getProperty params "format") (JsString "markdown")) ]);
                executionTime := 0;
                errors := None; readOnly := None |}
       | source => RejectedWith (methodTypeError "source" "substring" source)
       end |}.

Definition TestRunnerTool : Tool :=
  {| name := "test-runner";
     description := "Runs automated tests and generates reports";
     category := "testing";
     version := "1.0.0";
     validate := λ params _, Fulfilled (isString (getProperty params "testSuite"));
     execute := λ params w,
       let '(passed, w1) := randomBelow 50 w in
       let '(failed, w2) := randomBelow 5 w1 in
       let '(coverage, _) := randomBelow 20 w2 in
       Fulfilled
         {| success := true;
            message := "Tests executed successfully";
            data := Some (JsObject
              [ ("testSuite", getProperty params "testSuite");
                ("passed", JsNumber (passed + 45));
                ("failed", JsNumber failed);
                ("coverage", JsNumber (coverage + 80)) ]);
            executionTime := 0;
            errors := None; readOnly := None |} |}.

(** [['low', 'medium', 'high'][i]] *)
Definition riskLevelAt (i : Z) : JsValue :=
  default JsUndefined
    ([JsString "low"; JsString "medium"; JsString "high"] !! Z.to_nat i).

Definition SecurityScannerTool : Tool :=
  {| name := "security-scanner";
     description := "Scans code for security vulnerabilities";
     category := "security";
     version := "1.0.0";
     validate := λ params _, Fulfilled (isString (getProperty params "target"));
     execute := λ params w,
       let '(vulnerabilities, w1) := randomBelow 3 w in
       let '(level, _) := randomBelow 3 w1 in
       Fulfilled
         {| success := true;
            message := "Security scan completed";
            data := Some (JsObject
              [ ("target", getProperty params "target");
                ("vulnerabilities", JsNumber vulnerabilities);
                ("riskLevel", riskLevelAt level);
                ("recommendations",
                 JsArray [JsString "Update dependencies";
                          JsString "Fix input validation"]) ]);
            executionTime := 0;
            errors := None; readOnly := None |} |}.

Definition PerformanceProfilerTool : Tool :=
  {| name := "performance-profiler";
     description := "Profiles application performance and identifies bottlenecks";
     category := "performance";
     version := "1.0.0";
     validate := λ params _, Fulfilled (isString (getProperty params "application"));
     execute := λ params w,
       let '(responseTime, w1) := randomBelow 500 w in
       let '(memoryUsage, w2) := randomBelow 512 w1 in
       let '(cpuUtilization, _) := randomBelow 80 w2 in
       Fulfilled
         {| success := true;
            message := "Performance profiling completed";
            data := Some (JsObject
              [ ("application", getProperty params "application");
                ("responseTime", JsNumber (responseTime + 100));
                ("memoryUsage", JsNumber (memoryUsage + 256));
                ("cpuUtilization", JsNumber (cpuUtilization + 10));
                ("bottlenecks",
                 JsArray [JsString "Database queries";
                          JsString "Memory allocation"]) ]);
            executionTime := 0;
            errors := None; readOnly := None |} |}.

(** The tools that [initialize] registers, in its order (lines 53-58). *)
Definition builtinTools : list Tool :=
  [ CodeAnalysisTool; GitHubIntegrationTool; DocumentationGeneratorTool;
    TestRunnerTool; SecurityScannerTool; PerformanceProfilerTool ].

(** [initialize] (lines 49-61) *)
Definition initialize (o : ToolOrchestrator) : ToolOrchestrator :=
  foldl registerTool o builtinTools.

(** The parameters that each built-in tool reads in [validate] or in
    [execute]. *)
Definition readKeys : list (Tool * list string) :=
  [ (CodeAnalysisTool, ["code"]);
    (GitHubIntegrationTool, ["action"; "repository"]);
    (DocumentationGeneratorTool, ["source"; "format"]);
    (TestRunnerTool, ["testSuite"]);
    (SecurityScannerTool, ["target"]);
    (PerformanceProfilerTool, ["application"]) ].

(** ** The registry in insertion order

    [this.tools] is a JavaScript [Map], which lists its entries in the
    order in which their keys were first set.  The finite map of the
    orchestrator record forgets that order; for the listing functions the
    registry is the list of its entries in insertion order. *)
Abbreviation ToolMap := (list (string * Tool)).

(** [Map.prototype.set]: a key that is present keeps its place. *)
Fixpoint Map_set (m : ToolMap) (k : string) (v : Tool) : ToolMap :=
  match m with
  | [] => [(k, v)]
  | (k', v') :: m' =>
      if bool_decide (k' = k) then (k, v) :: m' else (k', v') :: Map_set m' k v
  end.

(** [Map.prototype.get] *)
Fixpoint Map_get (m : ToolMap) (k : string) : option Tool :=
  match m with
  | [] => None
  | (k', v') :: m' => if bool_decide (k' = k) then Some v' else Map_get m' k
  end.

(** The entries of [this.tools] after [registerTool] was called for the
    tools [ts], in this order, on a map with the entries [m]. *)
Definition registerAll (m : ToolMap) (ts : list Tool) : ToolMap :=
  foldl (λ m t, Map_set m (name t) t) m ts.

(** [getAvailableTools] (lines 165-167): [Array.from(this.tools.values())] *)
Definition getAvailableTools (m : ToolMap) : list Tool := snd <$> m.

(** [getToolsByCategory] (lines 169-171) *)
Definition getToolsByCategory (m : ToolMap) (c : string) : list Tool :=
  filter (λ t, category t = c) (getAvailableTools m).

(** ** Reading results and states *)

(** The value of a property of an object, or nothing when it is absent. *)
Fixpoint objectGet (l : list (string * JsValue)) (k : string) : option JsValue :=
  match l with
  | [] => None
  | (k', v) :: l' => if bool_decide (k' = k) then Some v else objectGet l' k
  end.

(** [result.data.key] *)
Definition dataField (r : ToolResult) (k : string) : option JsValue :=
  match data r with
  | Some (JsObject l) => objectGet l k
  | _ => None
  end.

(** [v] is a number between [lo] and [hi]. *)
Definition numberIn (lo hi : Z) (v : option JsValue) : Prop :=
  ∃ z, v = Some (JsNumber z) ∧ lo ≤ z ≤ hi.

(** The tools of the pending retry timers are registered. *)
Definition timersRegistered (rt : Runtime) : Prop :=
  Forall (λ r, is_Some (tools (orch rt) !! retry_toolName r)) (timers rt).

(** A call that is started at once, followed by the settlement of its
    validation and of its race. *)
Definition callAndSettle (rt : Runtime) (toolName : string)
    (params : ToolParameters) (ctx : AgentContext) (prio : option Z)
    (eid : string) (w : Oracle) (now : Z) (win : RaceWinner) (now' : Z)
    (eid' eid'' : string) : list Event :=
  [ CallExecuteTool toolName params ctx prio eid;
    ValidateSettles (length (tasks rt)) w now eid';
    RaceSettles (length (tasks rt)) win now' eid'' ].

(** Parameter bags for the examples. *)
Definition reviewParams (code : string) : ToolParameters :=
  {[ "code" := JsString code; "analysisType" := JsString "comprehensive" ]}.

Definition scanParams : ToolParameters :=
  {[ "target" := JsString "src/api/"; "scanType" := JsString "comprehensive" ]}.

(** A tool of a user that takes the name of a built-in tool. *)
Definition customAnalysisTool : Tool := probeTool "code-analysis".

(** A new orchestrator after [initialize], with five slots. *)
Definition initializedRuntime : Runtime :=
  {| orch := initialize (newToolOrchestrator (defaultConfig 5));
     tasks := []; timers := [] |}.

(** A configuration without slots: one registered tool and one call. *)
Definition starvedTrace : list Event :=
  [ CallRegisterTool (probeTool "probe");
    callProbe "A" goodParams None "exec_1" ].

(** The registrations of [initialize], then those of a user. *)
Definition overridingRegistrations : list Tool :=
  builtinTools ++ [customAnalysisTool].
(** ** Facts about the sort *)

Section SortFacts.
Context {A : Type} (cmp : A → A → Z).

Lemma sort_insert_split (x : A) (l : list A) :
  ∃ l1 l2, l = l1 ++ l2 ∧ sort_insert cmp x l = l1 ++ x :: l2 ∧
    Forall (λ y, 0 ≤ cmp x y) l1 ∧
    match l2 with [] => True | y :: _ => cmp x y < 0 end.
Proof.
  induction l as [|y l IH]; simpl.
  - by exists [], [].
  - case_bool_decide as Hlt.
    + by exists [], (y :: l).
    + destruct IH as (l1 & l2 & -> & -> & Hall & Hhd).
      exists (y :: l1), l2. split_and!; auto.
      constructor; [lia | done].
Qed.

Lemma sort_insert_Permutation (x : A) (l : list A) :
  sort_insert cmp x l ≡ₚ x :: l.
Proof.
  destruct (sort_insert_split x l) as (l1 & l2 & -> & -> & _).
  by rewrite Permutation_middle.
Qed.

Lemma Array_sort_snoc (l : list A) (x : A) :
  Array_sort cmp (l ++ [x]) = sort_insert cmp x (Array_sort cmp l).
Proof. unfold Array_sort. by rewrite fold_left_app. Qed.

Lemma Array_sort_Permutation (l : list A) : Array_sort cmp l ≡ₚ l.
Proof.
  induction l as [|x l IH] using rev_ind; [done |].
  rewrite Array_sort_snoc, sort_insert_Permutation, IH.
  by rewrite Permutation_cons_append.
Qed.
End SortFacts.

Lemma sort_insert_byPriority_sorted (e : ToolExecution) (q : list ToolExecution) :
  StronglySorted notLower q → StronglySorted notLower (sort_insert byPriority e q).
Proof.
  induction 1 as [|y q Hq IH Hall]; simpl.
  - repeat constructor.
  - unfold byPriority at 1. case_bool_decide as Hlt.
    + constructor; [by constructor |].
      constructor; [unfold notLower; lia |].
      eapply Forall_impl; [exact Hall |]. unfold notLower. intros z ?; lia.
    + constructor; [done |].
      rewrite sort_insert_Permutation. constructor; [unfold notLower; lia | done].
Qed.

Lemma Array_sort_byPriority_sorted (l : list ToolExecution) :
  StronglySorted notLower (Array_sort byPriority l).
Proof.
  induction l as [|x l IH] using rev_ind; [constructor |].
  rewrite Array_sort_snoc. by apply sort_insert_byPriority_sorted.
Qed.

Lemma sort_insert_byPriority_last (e : ToolExecution) (q : list ToolExecution) :
  Forall (λ y, priority e ≤ priority y) q → sort_insert byPriority e q = q ++ [e].
Proof.
  induction 1 as [|y q Hy _ IH]; simpl; [done |].
  unfold byPriority at 1. rewrite bool_decide_eq_false_2 by lia. by rewrite IH.
Qed.

(** Sorting a sorted queue changes nothing. *)
Lemma Array_sort_sorted_id (q : list ToolExecution) :
  StronglySorted notLower q → Array_sort byPriority q = q.
Proof.
  induction q as [|x q IH] using rev_ind; [done |].
  intros Hs. rewrite Array_sort_snoc.
  rewrite IH by (by eapply StronglySorted_app_1_l).
  apply sort_insert_byPriority_last.
  apply Forall_forall. intros y Hy.
  eapply (StronglySorted_app_1_elem_of notLower q [x] y x); [done | done | set_solver].
Qed.

(** Pushing onto a sorted queue and sorting it puts the new entry behind
    every entry that is not lower in priority, and before the others. *)
Lemma enqueue_sorted_split (q : list ToolExecution) (e : ToolExecution) :
  StronglySorted notLower q →
  ∃ l1 l2, q = l1 ++ l2 ∧ enqueue q e = l1 ++ e :: l2 ∧
    Forall (λ y, priority e ≤ priority y) l1 ∧
    Forall (λ y, priority y < priority e) l2.
Proof.
  intros Hs. unfold enqueue. rewrite Array_sort_snoc, Array_sort_sorted_id by done.
  destruct (sort_insert_split byPriority e q) as (l1 & l2 & -> & -> & H1 & H2).
  exists l1, l2. split_and!; try done.
  - eapply Forall_impl; [exact H1 |]. unfold byPriority. intros y ?; lia.
  - apply StronglySorted_app_1_r in Hs.
    destruct l2 as [|y l2]; [constructor |].
    apply StronglySorted_inv in Hs as [_ Hall]. unfold byPriority in H2.
    constructor; [lia |].
    eapply Forall_impl; [exact Hall |]. unfold notLower. intros z ?; lia.
Qed.

(** A list splits in one way only into a part that satisfies [P]
    throughout and a part that satisfies it nowhere. *)
Lemma split_unique {A} (P : A → Prop) (l1 l2 k1 k2 : list A) :
  l1 ++ l2 = k1 ++ k2 →
  Forall P l1 → Forall (λ x, ¬ P x) l2 →
  Forall P k1 → Forall (λ x, ¬ P x) k2 →
  l1 = k1 ∧ l2 = k2.
Proof.
  revert k1. induction l1 as [|x l1 IH]; intros k1 Heq Hl1 Hl2 Hk1 Hk2.
  - destruct k1 as [|y k1]; [done |]. simpl in Heq. subst l2.
    apply Forall_inv in Hl2. apply Forall_inv in Hk1. done.
  - destruct k1 as [|y k1]; simpl in Heq.
    + subst k2. apply Forall_inv in Hk2. apply Forall_inv in Hl1. done.
    + injection Heq as -> Heq.
      apply Forall_cons in Hl1 as [_ Hl1]. apply Forall_cons in Hk1 as [_ Hk1].
      destruct (IH k1 Heq Hl1 Hl2 Hk1 Hk2) as [-> ->]. done.
Qed.

(** Whatever the algorithm, a stable sort of a sorted queue with one
    entry pushed onto it gives the result of [enqueue]: the entries of the
    queue keep their order, the result is sorted, and the new entry stays
    behind the entries of its own priority. *)
Lemma enqueue_unique (q : list ToolExecution) (e : ToolExecution)
    (l1 l2 : list ToolExecution) :
  StronglySorted notLower q →
  q = l1 ++ l2 →
  StronglySorted notLower (l1 ++ e :: l2) →
  Forall (λ y, priority y ≠ priority e) l2 →
  enqueue q e = l1 ++ e :: l2.
Proof.
  intros Hq Heq Hs Hne.
  destruct (enqueue_sorted_split q e Hq) as (k1 & k2 & Hk & -> & Hk1 & Hk2).
  assert (Hl1 : Forall (λ y, priority e ≤ priority y) l1).
  { apply Forall_forall. intros y Hy.
    eapply (StronglySorted_app_1_elem_of notLower l1 (e :: l2) y e);
      [done | done | left]. }
  assert (Hl2 : Forall (λ y, ¬ priority e ≤ priority y) l2).
  { apply StronglySorted_app_1_r, StronglySorted_inv in Hs as [_ Hall].
    apply Forall_forall. intros y Hy.
    pose proof (proj1 (Forall_forall _ _) Hall y Hy) as Hle.
    pose proof (proj1 (Forall_forall _ _) Hne y Hy) as Hn.
    unfold notLower in Hle. simpl in Hle, Hn. lia. }
  assert (Hk2' : Forall (λ y, ¬ priority e ≤ priority y) k2).
  { eapply Forall_impl; [exact Hk2 |]. simpl. intros y ?. lia. }
  destruct (split_unique (λ y, priority e ≤ priority y) l1 l2 k1 k2)
    as [-> ->]; [congruence | done ..].
Qed.

Lemma enqueue_sorted (q : list ToolExecution) (e : ToolExecution) :
  StronglySorted notLower (enqueue q e).
Proof. apply Array_sort_byPriority_sorted. Qed.

Lemma enqueue_Permutation (q : list ToolExecution) (e : ToolExecution) :
  enqueue q e ≡ₚ e :: q.
Proof.
  unfold enqueue. rewrite Array_sort_Permutation.
  symmetry. apply Permutation_cons_append.
Qed.

Lemma enqueue_length (q : list ToolExecution) (e : ToolExecution) :
  length (enqueue q e) = S (length q).
Proof. by rewrite enqueue_Permutation. Qed.

(** ** Invariants of the transition system *)

(** A property of the runtime that every elementary update of
    [executeTool], [processQueue] and the [finally] block preserves holds
    in every reachable state. *)
Section Invariant.
Variable P : Runtime → Prop.

Hypothesis P_register : ∀ rt t,
  P rt → P {| orch := registerTool (orch rt) t; tasks := tasks rt; timers := timers rt |}.
Hypothesis P_backlog : ∀ rt t toolName params ctx prio,
  P rt → lookupTool (orch rt) toolName = Some t → atCapacity rt = true →
  P (backlog rt t toolName params ctx prio).
Hypothesis P_start : ∀ rt o t toolName params ctx eid,
  P rt → lookupTool (orch rt) toolName = Some t → atCapacity rt = false →
  P (startExecution rt o t toolName params ctx eid).
Hypothesis P_release : ∀ rt i t,
  P rt → tasks rt !! i = Some t → P (release rt i t).
Hypothesis P_shift : ∀ rt e rest,
  P rt → queue rt = e :: rest → P (setQueue rest rt).
Hypothesis P_timer : ∀ rt k,
  P rt → P (setTimers (delete k (timers rt)) rt).
Hypothesis P_phase : ∀ rt i t ph,
  P rt → tasks rt !! i = Some t →
  P (setTasks (<[i := setPhase t ph]> (tasks rt)) rt).

Lemma executeTool_preserves rt o toolName params ctx prio eid :
  P rt → P (fst (executeTool rt o toolName params ctx prio eid)).
Proof.
  intros HP. unfold executeTool.
  destruct (lookupTool (orch rt) toolName) as [t|] eqn:Ht; [| done].
  destruct (atCapacity rt) eqn:Hc; simpl; eauto.
Qed.

Lemma processQueue_preserves rt eid :
  P rt → P (fst (processQueue rt eid)).
Proof.
  intros HP. unfold processQueue.
  destruct (queue rt) as [|e rest] eqn:Hq; [done |].
  case_bool_decide; [| done].
  apply executeTool_preserves. eauto.
Qed.

Lemma finish_preserves rt i t c eid :
  P rt → tasks rt !! i = Some t → P (fst (finish rt i t c eid)).
Proof.
  intros HP Ht. unfold finish.
  pose proof (processQueue_preserves (release rt i t) eid) as Hq.
  destruct (processQueue (release rt i t) eid) as [rt' ls]. simpl in *. eauto.
Qed.

Lemma step_preserves rt ev : P rt → P (fst (step rt ev)).
Proof.
  intros HP. destruct ev as [t|toolName params ctx prio eid|k eid|i w now eid|i win now eid]; simpl.
  - by apply P_register.
  - by apply executeTool_preserves.
  - unfold afterRetryTimer. destruct (timers rt !! k); [| done].
    apply executeTool_preserves. by apply P_timer.
  - unfold afterValidate. destruct (tasks rt !! i) as [t|] eqn:Ht; [| done].
    destruct (task_phase t); [| done].
    destruct (validate _ _ _) as [[]|e]; simpl;
      eauto using finish_preserves.
  - unfold afterRace. destruct (tasks rt !! i) as [t|] eqn:Ht; [| done].
    destruct (task_phase t); [done |].
    by apply finish_preserves.
Qed.

Lemma reachable_preserves c rt :
  P (newRuntime c) → reachable c rt → P rt.
Proof. intros H0. induction 1; eauto using step_preserves. Qed.
End Invariant.

Lemma run_app rt evs1 evs2 :
  run rt (evs1 ++ evs2) =
    let '(rt1, ls1) := run rt evs1 in
    let '(rt2, ls2) := run rt1 evs2 in (rt2, ls1 ++ ls2).
Proof.
  revert rt. induction evs1 as [|ev evs1 IH]; intros rt; simpl.
  - by destruct (run rt evs2).
  - destruct (step rt ev) as [rt1 ls1]. rewrite IH.
    destruct (run rt1 evs1) as [rt2 ls2], (run rt2 evs2) as [rt3 ls3].
    by rewrite (assoc_L (++)).
Qed.

(** Every sequence of events leads to a reachable state. *)
Lemma run_reachable c evs : reachable c (fst (run (newRuntime c) evs)).
Proof.
  induction evs as [|ev evs IH] using rev_ind; [constructor |].
  rewrite run_app. destruct (run (newRuntime c) evs) as [rt1 ls1]. simpl in *.
  pose proof (reachable_step c rt1 ev IH) as Hs.
  by destruct (step rt1 ev).
Qed.

(** Conversely, every reachable state is the end of a sequence of events. *)
Lemma reachable_run c rt :
  reachable c rt → ∃ evs, rt = fst (run (newRuntime c) evs).
Proof.
  induction 1 as [|rt ev _ [evs ->]]; [by exists [] |].
  exists (evs ++ [ev]). rewrite run_app.
  destruct (run (newRuntime c) evs) as [rt1 ls1]. simpl.
  by destruct (step rt1 ev).
Qed.

(** The configuration is read but never assigned. *)
Lemma reachable_config c rt : reachable c rt → config (orch rt) = c.
Proof. intros H. by apply (reachable_preserves (λ rt, config (orch rt) = c)) in H. Qed.

Lemma size_add_le (x : string) (X : gset string) : (size ({[x]} ∪ X) ≤ S (size X))%nat.
Proof.
  rewrite size_union_alt, size_singleton.
  assert (size (X ∖ {[x]}) ≤ size X)%nat
    by (by apply subseteq_size, subseteq_difference_l).
  lia.
Qed.

Lemma size_remove_le (x : string) (X : gset string) : (size (X ∖ {[x]}) ≤ size X)%nat.
Proof. by apply subseteq_size, subseteq_difference_l. Qed.

Lemma withinLimit_reachable c rt :
  0 ≤ maxConcurrent c → reachable c rt → withinLimit rt.
Proof.
  intros Hc. apply reachable_preserves; unfold withinLimit.
  - done.
  - done.
  - intros rt0 o t toolName params ctx eid Hle _ Hcap. simpl.
    unfold atCapacity in Hcap.
    apply bool_decide_eq_false in Hcap.
    pose proof (size_add_le eid (runningExecutions (orch rt0))). lia.
  - intros rt0 i t Hle _. simpl.
    pose proof (size_remove_le (task_executionId t) (runningExecutions (orch rt0))). lia.
  - done.
  - done.
  - done.
  - change (Z.of_nat (size (∅ : gset string)) ≤ maxConcurrent c).
    rewrite size_empty. lia.
Qed.

(** ** Runs in which every activation gets an identifier of its own *)

Lemma size_add_fresh (x : string) (X : gset string) :
  x ∉ X → size ({[x]} ∪ X) = S (size X).
Proof.
  intros Hx. rewrite size_union by set_solver. by rewrite size_singleton.
Qed.

Lemma size_remove_elem (x : string) (X : gset string) :
  x ∈ X → S (size (X ∖ {[x]})) = size X.
Proof.
  intros Hx. rewrite size_difference by set_solver. rewrite size_singleton.
  assert (size X ≠ 0%nat); [| lia].
  intros Hz. apply size_empty_inv in Hz. set_solver.
Qed.

Lemma add_then_remove (x : string) (X : gset string) :
  x ∉ X → ({[x]} ∪ X) ∖ {[x]} = X.
Proof.
  intros Hx. apply set_eq. intros y.
  rewrite elem_of_difference, elem_of_union, !elem_of_singleton.
  split; [by intros [[? | ?] ?] |].
  intros Hy. split; [by right |]. by intros ->.
Qed.

Lemma coherent_weaken used used' rt :
  coherent used rt → (∀ id, id ∈ used → id ∈ used') → coherent used' rt.
Proof. intros [] Hsub. constructor; auto. Qed.

Lemma coherent_cons used rt id :
  coherent used rt → coherent (id :: used) rt.
Proof. intros Hc. eapply coherent_weaken; [done |]. intros. by right. Qed.

Lemma coherent_setTimers used rt ts :
  coherent used rt → coherent used (setTimers ts rt).
Proof. by intros []. Qed.

Lemma coherent_setQueue_tail used rt e rest :
  coherent used rt → queue rt = e :: rest → coherent used (setQueue rest rt).
Proof.
  intros [Hr Hq Ht Hd Hk Hu] Heq. constructor; simpl; try done.
  rewrite Heq in Hq. by apply Forall_inv_tail in Hq.
Qed.

Lemma coherent_backlog used rt t toolName params ctx prio :
  coherent used rt → lookupTool (orch rt) toolName = Some t →
  coherent used (backlog rt t toolName params ctx prio).
Proof.
  intros [Hr Hq Ht Hd Hk Hu] Hl. constructor; simpl; try done.
  rewrite enqueue_Permutation. constructor; [| done]. simpl.
  unfold lookupTool in Hl. rewrite (Hr _ _ Hl). by rewrite Hl.
Qed.

Lemma coherent_start used rt o t toolName params ctx eid :
  coherent used rt → eid ∉ used →
  coherent (eid :: used) (startExecution rt o t toolName params ctx eid).
Proof.
  intros [Hr Hq Ht Hd Hk Hu] Hf. constructor; simpl; try done.
  - apply Forall_app. split.
    + eapply Forall_impl; [exact Ht |]. simpl. set_solver.
    + constructor; [| done]. simpl. set_solver.
  - rewrite fmap_app. apply NoDup_app. split_and!; [done | | apply NoDup_singleton].
    intros id Hid. simpl. intros Heq%list_elem_of_singleton. subst id.
    apply Hf, Hu.
    apply list_elem_of_fmap in Hid as (t0 & Heq & Hin). rewrite Heq.
    by eapply (proj1 (Forall_forall _ _) Ht).
  - intros id Hid. rewrite fmap_app. apply elem_of_app.
    apply elem_of_union in Hid as [->%elem_of_singleton | Hid].
    + right. simpl. left.
    + left. auto.
  - intros id [->%elem_of_singleton | Hid]%elem_of_union; [left | right; auto].
Qed.

Lemma coherent_release used rt i t :
  coherent used rt → tasks rt !! i = Some t → coherent used (release rt i t).
Proof.
  intros [Hr Hq Ht Hd Hk Hu] Hi. constructor; simpl; try done.
  - apply delete_Permutation in Hi as Hp.
    assert (Hp' : task_executionId <$> tasks rt ≡ₚ
              task_executionId t :: (task_executionId <$> delete i (tasks rt)))
      by (by rewrite Hp at 1).
    rewrite Hp' in Hd. apply NoDup_cons in Hd as [Hnot _].
    apply Forall_forall. intros t0 Hin.
    apply elem_of_difference. split.
    + eapply (proj1 (Forall_forall _ _) Ht), list_elem_of_delete_inv, Hin.
    + intros Heq%elem_of_singleton. apply Hnot. rewrite <- Heq.
      apply list_elem_of_fmap. eauto.
  - eapply sublist_NoDup; [exact Hd |]. apply fmap_sublist, sublist_delete.
  - intros id [Hid Hne]%elem_of_difference.
    apply delete_Permutation in Hi as Hp.
    assert (Hp' : task_executionId <$> tasks rt ≡ₚ
              task_executionId t :: (task_executionId <$> delete i (tasks rt)))
      by (by rewrite Hp at 1).
    apply Hk in Hid. rewrite Hp' in Hid.
    apply elem_of_cons in Hid as [-> | Hid]; [| done].
    exfalso. apply Hne. by apply elem_of_singleton.
  - intros id Hid. apply Hu. by apply elem_of_difference in Hid as [? _].
Qed.

Lemma coherent_phase used rt i t ph :
  coherent used rt → tasks rt !! i = Some t →
  coherent used (setTasks (<[i := setPhase t ph]> (tasks rt)) rt).
Proof.
  intros [Hr Hq Ht Hd Hk Hu] Hi. constructor; simpl; try done.
  - apply Forall_insert; [done |]. simpl.
    eapply (proj1 (Forall_forall _ _) Ht), list_elem_of_lookup_2, Hi.
  - rewrite list_fmap_insert. simpl.
    rewrite list_insert_id; [done |]. rewrite list_lookup_fmap, Hi. done.
  - rewrite list_fmap_insert. simpl.
    rewrite list_insert_id; [done |]. rewrite list_lookup_fmap, Hi. done.
Qed.

Lemma coherent_register used rt t :
  coherent used rt →
  coherent used {| orch := registerTool (orch rt) t; tasks := tasks rt; timers := timers rt |}.
Proof.
  intros [Hr Hq Ht Hd Hk Hu]. constructor; simpl; try done.
  - intros n t0. destruct (decide (name t = n)) as [<- | Hne].
    + rewrite lookup_insert_eq. by intros [= <-].
    + rewrite lookup_insert_ne by done. apply Hr.
  - eapply Forall_impl; [exact Hq |]. simpl. intros e [t0 He].
    destruct (decide (name t = name (tool e))) as [Heq | Hne].
    + rewrite Heq, lookup_insert_eq. eauto.
    + rewrite lookup_insert_ne by done. eauto.
Qed.

Lemma executeTool_coherent used rt o toolName params ctx prio eid :
  coherent used rt → eid ∉ used →
  coherent (eid :: used) (fst (executeTool rt o toolName params ctx prio eid)).
Proof.
  intros Hc Hf. unfold executeTool.
  destruct (lookupTool (orch rt) toolName) as [t|] eqn:Hl; simpl.
  - destruct (atCapacity rt); simpl.
    + by apply coherent_cons, coherent_backlog.
    + by apply coherent_start.
  - by apply coherent_cons.
Qed.

Lemma executeTool_saturated rt o toolName params ctx prio eid :
  saturated rt → saturated (fst (executeTool rt o toolName params ctx prio eid)).
Proof.
  intros Hs. unfold executeTool.
  destruct (lookupTool (orch rt) toolName) as [t|]; [| done].
  destruct (atCapacity rt) eqn:Hc; unfold saturated; simpl.
  - intros _. by apply bool_decide_eq_true in Hc.
  - intros Hq. apply bool_decide_eq_false in Hc. by specialize (Hs Hq).
Qed.

(** After a slot is released, the drain takes it again when requests
    wait. *)
Lemma finish_fresh used rt i t c eid :
  coherent used rt → saturated rt → tasks rt !! i = Some t → eid ∉ used →
  coherent (eid :: used) (fst (finish rt i t c eid)) ∧
  saturated (fst (finish rt i t c eid)).
Proof.
  intros Hc Hs Hi Hf.
  pose proof (coherent_release _ _ _ _ Hc Hi) as Hc1.
  assert (Hin : task_executionId t ∈ running rt).
  { eapply (proj1 (Forall_forall _ _) (coherent_tasks _ _ Hc)),
      list_elem_of_lookup_2, Hi. }
  pose proof (size_remove_elem _ _ Hin) as Hsz.
  unfold finish, processQueue.
  destruct (queue (release rt i t)) as [|e rest] eqn:Hq.
  { simpl. split; [by apply coherent_cons |].
    unfold saturated. by rewrite Hq. }
  case_bool_decide as Hlt; simpl.
  - pose proof (coherent_setQueue_tail _ _ _ _ Hc1 Hq) as Hc2.
    pose proof (executeTool_coherent _ _ ByDrain (name (tool e)) (parameters e)
                  (context e) (priority e) eid Hc2 Hf) as Hc3.
    destruct (executeTool _ _ _ _ _ _ _) as [rt' ls] eqn:He. simpl in *.
    split; [done |].
    assert (Hreg : is_Some (lookupTool (orch rt) (name (tool e)))).
    { pose proof (coherent_queue _ _ Hc) as Hall. rewrite Hq in Hall.
      by apply Forall_inv in Hall. }
    destruct Hreg as [t' Ht'].
    unfold executeTool, lookupTool in He. unfold lookupTool in Ht'.
    simpl in He. rewrite Ht' in He.
    unfold atCapacity in He. simpl in He.
    rewrite bool_decide_eq_false_2 in He by lia.
    injection He as <- <-. unfold saturated. simpl. intros _.
    rewrite size_add_fresh; [| intros Hx; apply Hf, (coherent_used _ _ Hc1), Hx].
    assert (limit rt ≤ Z.of_nat (size (running rt))); [| lia].
    apply Hs. simpl in Hq. by rewrite Hq.
  - split; [by apply coherent_cons |].
    unfold saturated. simpl. intros _. simpl in Hlt. lia.
Qed.

Lemma step_fresh used rt ev :
  coherent used rt → saturated rt →
  (∀ eid, eventId ev = Some eid → eid ∉ used) →
  coherent (usedAfter used ev) (fst (step rt ev)) ∧ saturated (fst (step rt ev)).
Proof.
  intros Hc Hs Hf. unfold usedAfter.
  destruct ev as [t|toolName params ctx prio eid|k eid|i w now eid|i win now eid];
    simpl in *.
  - split; [by apply coherent_register | done].
  - split; [apply executeTool_coherent | apply executeTool_saturated]; auto.
  - unfold afterRetryTimer. destruct (timers rt !! k) as [r|].
    + split; [apply executeTool_coherent | apply executeTool_saturated]; auto.
      by apply coherent_setTimers.
    + split; [| done]. by apply coherent_cons.
  - unfold afterValidate. destruct (tasks rt !! i) as [t|] eqn:Hi;
      [| split; [by apply coherent_cons | done]].
    destruct (task_phase t);
      [| split; [by apply coherent_cons | done]].
    destruct (validate _ _ _) as [[]|e]; simpl; auto using finish_fresh.
    split; [| done].
    by apply coherent_cons, coherent_phase.
  - unfold afterRace. destruct (tasks rt !! i) as [t|] eqn:Hi;
      [| split; [by apply coherent_cons | done]].
    destruct (task_phase t);
      [split; [by apply coherent_cons | done] |].
    auto using finish_fresh.
Qed.

Lemma coherent_new c : coherent [] (newRuntime c).
Proof.
  constructor; simpl; try done; constructor.
Qed.

(** With distinct identifiers the running set counts the suspended
    activations. *)
Lemma coherent_size used rt :
  coherent used rt → size (running rt) = length (tasks rt).
Proof.
  intros [Hr Hq Ht Hd Hk Hu].
  assert (Heq : running rt = list_to_set (task_executionId <$> tasks rt)).
  { apply set_eq. intros id. rewrite elem_of_list_to_set. split; [apply Hk |].
    intros (t & -> & Hin)%list_elem_of_fmap.
    by eapply (proj1 (Forall_forall _ _) Ht). }
  rewrite Heq, size_list_to_set by done. by rewrite length_fmap.
Qed.

Lemma run_fresh used rt evs :
  coherent used rt → saturated rt → NoDup (omap eventId evs) →
  (∀ id, id ∈ omap eventId evs → id ∉ used) →
  ∃ used', coherent used' (fst (run rt evs)) ∧ saturated (fst (run rt evs)).
Proof.
  revert used rt. induction evs as [|ev evs IH]; intros used rt Hc Hs Hnd Hf.
  { exists used. by split. }
  simpl. destruct (step_fresh used rt ev Hc Hs) as [Hc1 Hs1].
  { intros eid Heid. apply Hf. simpl. rewrite Heid. left. }
  destruct (step rt ev) as [rt1 ls1]. simpl in *.
  destruct (IH (usedAfter used ev) rt1 Hc1 Hs1) as (used' & Hc2 & Hs2).
  { destruct (eventId ev); [by apply NoDup_cons in Hnd as [_ ?] | done]. }
  { intros id Hid. unfold usedAfter.
    destruct (eventId ev) as [eid|] eqn:Heid.
    - apply NoDup_cons in Hnd as [Hnot _]. intros [-> | Hin]%elem_of_cons.
      + done.
      + revert Hin. apply Hf. by right.
    - by apply Hf. }
  exists used'. by destruct (run rt1 evs).
Qed.

(** ** How the queue evolves *)

Lemma registered_reachable c rt : reachable c rt → registered rt.
Proof.
  apply (reachable_preserves registered); unfold registered.
  - intros rt0 t [Hr Hq]. simpl. split.
    + intros n t0. destruct (decide (name t = n)) as [<- | Hne].
      * rewrite lookup_insert_eq. by intros [= <-].
      * rewrite lookup_insert_ne by done. apply Hr.
    + eapply Forall_impl; [exact Hq |]. simpl. intros e [t0 He].
      destruct (decide (name t = name (tool e))) as [Heq | Hne].
      * rewrite Heq, lookup_insert_eq. eauto.
      * rewrite lookup_insert_ne by done. eauto.
  - intros rt0 t toolName params ctx prio [Hr Hq] Hl _. simpl. split; [done |].
    rewrite enqueue_Permutation. constructor; [| done]. simpl.
    unfold lookupTool in Hl. rewrite (Hr _ _ Hl). by rewrite Hl.
  - by intros rt0 o t toolName params ctx eid [Hr Hq] _ _.
  - by intros rt0 i t [Hr Hq] _.
  - intros rt0 e rest [Hr Hq] Heq. simpl. split; [done |].
    rewrite Heq in Hq. by apply Forall_inv_tail in Hq.
  - by intros rt0 k [Hr Hq].
  - by intros rt0 i t ph [Hr Hq] _.
  - split; [done | constructor].
Qed.

Lemma sorted_reachable c rt : reachable c rt → StronglySorted notLower (queue rt).
Proof.
  apply (reachable_preserves (λ rt, StronglySorted notLower (queue rt)));
    simpl; try done.
  - intros. apply enqueue_sorted.
  - intros rt0 e rest Hs Heq. rewrite Heq in Hs.
    by apply StronglySorted_inv in Hs as [? _].
  - constructor.
Qed.

Lemma executeTool_queueChange rt o toolName params ctx prio eid :
  queueChange rt (fst (executeTool rt o toolName params ctx prio eid)).
Proof.
  unfold executeTool. destruct (lookupTool (orch rt) toolName) as [t|].
  - destruct (atCapacity rt) eqn:Hc; simpl.
    + by eapply queue_joined.
    + by apply queue_kept.
  - by apply queue_kept.
Qed.

Lemma finish_queueChange rt i t c eid :
  registered rt → StronglySorted notLower (queue rt) →
  queueChange rt (fst (finish rt i t c eid)).
Proof.
  intros [Hr Hq] Hs. unfold finish, processQueue.
  destruct (queue (release rt i t)) as [|e rest] eqn:Heq; [by apply queue_kept |].
  simpl in Heq. case_bool_decide as Hlt; [| by apply queue_kept].
  rewrite Heq in Hq. apply Forall_inv in Hq as [t' Ht'].
  unfold executeTool, lookupTool, atCapacity. simpl. rewrite Ht'.
  rewrite bool_decide_eq_false_2 by (simpl in Hlt; lia). simpl.
  eapply (queue_head_promoted _ _ e rest); simpl; try done.
  - rewrite Heq in Hs. by apply StronglySorted_inv in Hs as [_ ?].
  - by rewrite last_snoc.
  - by repeat split.
Qed.

Lemma step_queueChange c rt ev :
  reachable c rt → queueChange rt (fst (step rt ev)).
Proof.
  intros Hreach.
  pose proof (registered_reachable c rt Hreach) as Hreg.
  pose proof (sorted_reachable c rt Hreach) as Hs.
  destruct ev as [t|toolName params ctx prio eid|k eid|i w now eid|i win now eid]; simpl.
  - by apply queue_kept.
  - apply executeTool_queueChange.
  - unfold afterRetryTimer. destruct (timers rt !! k) as [r|]; [| by apply queue_kept].
    destruct (executeTool_queueChange (setTimers (delete k (timers rt)) rt) ByRetry
                (retry_toolName r) (retry_parameters r) (retry_context r)
                (retry_priority r) eid) as [Hk | ? ? ? ? Hc Hj Ht | ? ? ? Hq1 Hq2 Hall Hl Hp].
    + by apply queue_kept.
    + by eapply queue_joined.
    + by eapply queue_head_promoted.
  - unfold afterValidate. destruct (tasks rt !! i) as [t|]; [| by apply queue_kept].
    destruct (task_phase t); [| by apply queue_kept].
    destruct (validate _ _ _) as [[]|e]; simpl;
      [by apply queue_kept | by apply finish_queueChange ..].
  - unfold afterRace. destruct (tasks rt !! i) as [t|]; [| by apply queue_kept].
    destruct (task_phase t); [by apply queue_kept | by apply finish_queueChange].
Qed.

Lemma saturated_new c : saturated (newRuntime c).
Proof. by intros ?. Qed.

Lemma run_new_fresh c evs :
  freshIds evs →
  ∃ used, coherent used (fst (run (newRuntime c) evs)) ∧
          saturated (fst (run (newRuntime c) evs)).
Proof.
  intros Hfresh. apply (run_fresh [] (newRuntime c) evs).
  - apply coherent_new.
  - apply saturated_new.
  - exact Hfresh.
  - intros id _. apply not_elem_of_nil.
Qed.

Lemma no_label_is_execute_after_executeTool rt o toolName params ctx prio eid :
  filter isExecuteCalled (snd (executeTool rt o toolName params ctx prio eid)) = [].
Proof.
  unfold executeTool. destruct (lookupTool _ _); [| done].
  by destruct (atCapacity rt).
Qed.

Lemma no_label_is_execute_after_finish rt i t c eid :
  filter isExecuteCalled (snd (finish rt i t c eid)) = [].
Proof.
  unfold finish, processQueue.
  destruct (queue (release rt i t)) as [|e rest]; [done |].
  case_bool_decide; [| done].
  pose proof (no_label_is_execute_after_executeTool
                (setQueue rest (release rt i t)) ByDrain (name (tool e))
                (parameters e) (context e) (priority e) eid) as Hn.
  destruct (executeTool _ _ _ _ _ _ _) as [rt' ls]. simpl in *.
  rewrite filter_app, Hn. done.
Qed.

(** ** What a completed activation delivers *)

Lemma executeTool_labels rt toolName params ctx prio eid :
  Forall fromDrain (snd (executeTool rt ByDrain toolName params ctx prio eid)).
Proof.
  unfold executeTool. destruct (lookupTool _ _).
  - destruct (atCapacity rt); constructor.
  - repeat constructor. by eexists _, _, _.
Qed.

Lemma finish_delivers rt i t r eid :
  deliversResult (snd (finish rt i t (Returned r) eid)) t r.
Proof.
  unfold finish.
  assert (Hl : Forall fromDrain (snd (processQueue (release rt i t) eid))).
  { unfold processQueue. destruct (queue (release rt i t)) as [|e rest]; [constructor |].
    case_bool_decide; [apply executeTool_labels | constructor]. }
  destruct (processQueue _ _) as [rt' ls]. simpl in *. by exists ls.
Qed.

Lemma afterRace_finish rt i t startTime win now eid :
  tasks rt !! i = Some t → task_phase t = Racing startTime →
  step rt (RaceSettles i win now eid) =
    finish rt i t
      (Returned (raceOutcome (config (orch rt)) t win (now - startTime))) eid.
Proof. intros Hi Hph. simpl. unfold afterRace. by rewrite Hi, Hph. Qed.

Lemma afterValidate_rejected rt i t w now eid :
  tasks rt !! i = Some t → task_phase t = Validating →
  validate (task_tool t) (task_parameters t) w = Fulfilled false →
  step rt (ValidateSettles i w now eid) =
    finish rt i t
      (Returned (failureResult (invalidParametersError (task_toolName t)))) eid.
Proof. intros Hi Hph Hv. simpl. unfold afterValidate. by rewrite Hi, Hph, Hv. Qed.

Lemma afterValidate_threw rt i t w e now eid :
  tasks rt !! i = Some t → task_phase t = Validating →
  validate (task_tool t) (task_parameters t) w = RejectedWith e →
  step rt (ValidateSettles i w now eid) =
    finish rt i t (Returned (failureResult e)) eid.
Proof. intros Hi Hph Hv. simpl. unfold afterValidate. by rewrite Hi, Hph, Hv. Qed.

(** When a step has a single label, that label is the result. *)
Lemma deliversResult_single o toolName ctx r0 t r :
  deliversResult [Completed o toolName ctx (Returned r0)] t r → r = r0.
Proof.
  intros (ls0 & Heq & _). destruct ls0 as [|x ls0]; simpl in Heq.
  - by injection Heq.
  - injection Heq as _ Heq. by destruct ls0.
Qed.

Lemma finish_state rt i t c eid :
  fst (finish rt i t c eid) = fst (processQueue (release rt i t) eid).
Proof. unfold finish. by destruct (processQueue _ _). Qed.

(** ** Printing of numbers *)

Lemma roundToDouble_safe (c x : Z) :
  0 < x < 2 ^ 53 → roundToDouble c = x → c = x.
Proof.
  intros Hx. unfold roundToDouble. cbv zeta.
  case_bool_decide as Hsh; [done |].
  intros Heq. exfalso.
  assert (Hlog : 53 ≤ Z.log2 c) by lia.
  assert (Hc : 0 < c).
  { destruct (decide (0 < c)); [done |].
    rewrite Z.log2_nonpos in Hlog by lia. lia. }
  set (sh := Z.log2 c - 52) in *.
  assert (Hsh0 : 0 < sh) by lia.
  assert (Hq : 2 ^ 52 ≤ Z.shiftr c sh).
  { rewrite Z.shiftr_div_pow2 by lia.
    apply Z.div_le_lower_bound; [apply Z.pow_pos_nonneg; lia |].
    rewrite <- Z.pow_add_r by lia.
    replace (sh + 52) with (Z.log2 c) by lia.
    apply Z.log2_spec. done. }
  assert (Hres : ∀ q', Z.shiftr c sh ≤ q' → 2 ^ 53 ≤ Z.shiftl q' sh).
  { intros q' Hq'. rewrite Z.shiftl_mul_pow2 by lia.
    assert (H2 : 2 ^ 1 ≤ 2 ^ sh) by (apply Z.pow_le_mono_r; lia).
    change (2 ^ 53) with (2 ^ 52 * 2 ^ 1).
    apply Z.mul_le_mono_nonneg; lia. }
  destruct (_ || _).
  - pose proof (Hres (Z.shiftr c sh + 1) ltac:(lia)). lia.
  - pose proof (Hres (Z.shiftr c sh) ltac:(lia)). lia.
Qed.

Lemma shortestFrom_safe (x p : Z) (fuel : nat) :
  0 < x < 2 ^ 53 → shortestFrom x p fuel = x.
Proof.
  intros Hx. revert p. induction fuel as [|fuel IH]; intros p; [done |].
  simpl.
  destruct (bool_decide (roundToDouble (x / p * p) = x)) eqn:Hlo;
    destruct (bool_decide (roundToDouble (x / p * p + p) = x)) eqn:Hhi; simpl.
  - apply bool_decide_eq_true in Hlo, Hhi.
    apply (roundToDouble_safe _ _ Hx) in Hlo, Hhi.
    repeat case_bool_decide; try done. by destruct (Z.even _).
  - apply bool_decide_eq_true in Hlo. by apply (roundToDouble_safe _ _ Hx).
  - apply bool_decide_eq_true in Hhi. by apply (roundToDouble_safe _ _ Hx).
  - apply IH.
Qed.

(** Up to 2^53 a whole number that is not negative prints as its decimal
    digits. *)
Lemma Number_toString_safe (n : Z) :
  0 ≤ n < 2 ^ 53 → Number_toString n = pretty n.
Proof.
  intros Hn. unfold Number_toString.
  rewrite bool_decide_eq_false_2 by lia.
  unfold Number_toString_abs. case_bool_decide as H0; [by subst |].
  assert (Hr : roundToDouble n = n).
  { unfold roundToDouble. cbv zeta. rewrite bool_decide_eq_true_2; [done |].
    assert (Z.log2 n < 53) by (apply Z.log2_lt_pow2; lia). lia. }
  cbv zeta. rewrite Hr.
  rewrite bool_decide_eq_false_2.
  2:{ assert (2 ^ 53 < 2 ^ 1024) by (apply Z.pow_lt_mono_r; lia). lia. }
  unfold shortestDecimal. cbv zeta. rewrite shortestFrom_safe by lia.
  rewrite bool_decide_eq_true_2; [done |].
  assert (2 ^ 53 < 10 ^ 21) by (vm_compute; reflexivity). lia.
Qed.

(** ** Properties of the coordinator and of the registry *)

(** C1, as stated, fails.  The maximum is whatever integer the
    configuration holds, and nothing keeps it from being negative.  With a
    maximum of -1 the orchestrator that has just been constructed is a
    reachable state whose running set is empty: its size, 0, exceeds the
    maximum. *)
Lemma negative_maximum_is_exceeded :
  maxConcurrent negativeConfig = -1 ∧
  reachable negativeConfig (newRuntime negativeConfig) ∧
  size (runningExecutions (orch (newRuntime negativeConfig))) = 0%nat ∧
  ¬ (∀ rt, reachable negativeConfig rt →
           Z.of_nat (size (runningExecutions (orch rt))) ≤ maxConcurrent negativeConfig).
Proof.
  split; [reflexivity |]. split; [constructor |]. split; [reflexivity |].
  intros Hall. specialize (Hall (newRuntime negativeConfig) (reachable_new _)).
  vm_compute in Hall. by apply Hall.
Qed.

(** C1, amended (bounded concurrency).  When the configured maximum is not
    negative, the running set never holds more identifiers than
    [config.tools.maxConcurrent], in every state that a sequence of calls,
    timer expirations and promise settlements can reach; and when every
    activation gets an identifier of its own, the size of the running set
    is the number of activations that have been started and have not yet
    reached their [finally] block. *)
Theorem bounded_concurrency (c : ToolsConfig) (rt : Runtime) :
  0 ≤ maxConcurrent c →
  reachable c rt →
  config (orch rt) = c ∧
  Z.of_nat (size (runningExecutions (orch rt))) ≤ maxConcurrent c ∧
  (∀ evs, freshIds evs → rt = fst (run (newRuntime c) evs) →
     length (tasks rt) = size (runningExecutions (orch rt))).
Proof.
  intros Hc Hr. pose proof (reachable_config c rt Hr) as Heq.
  split; [done |]. split.
  - pose proof (withinLimit_reachable c rt Hc Hr) as Hle.
    unfold withinLimit in Hle. by rewrite Heq in Hle.
  - intros evs Hfresh ->.
    destruct (run_new_fresh c evs Hfresh) as (used & Hcoh & _).
    symmetry. by eapply coherent_size.
Qed.

Lemma bounded_concurrency_witness :
  0 ≤ maxConcurrent (sampleConfig 2) ∧
  reachable (sampleConfig 2) (fst (run (newRuntime (sampleConfig 2)) burstTrace)) ∧
  Z.of_nat (size (runningExecutions
    (orch (fst (run (newRuntime (sampleConfig 2)) burstTrace))))) ≤ 2.
Proof.
  assert (H0 : 0 ≤ maxConcurrent (sampleConfig 2)) by (simpl; lia).
  split; [exact H0 |]. split; [apply run_reachable |].
  exact (proj1 (proj2 (bounded_concurrency (sampleConfig 2) _ H0
                         (run_reachable (sampleConfig 2) burstTrace)))).
Defined.

(** C3 (unknown tool).  A call that names a tool which is not registered
    fails at once with the error "Tool not found: <name>"; the runtime is
    left as it was, so the running set and the execution queue are
    unchanged. *)
Theorem unknown_tool_fails_fast (rt : Runtime) (toolName : string)
    (params : ToolParameters) (ctx : AgentContext) (prio : option Z)
    (eid : string) :
  lookupTool (orch rt) toolName = None →
  step rt (CallExecuteTool toolName params ctx prio eid) =
    (rt, [Completed ByCaller toolName ctx
            (Thrown (ThrownError ("Tool not found: " +:+ toolName)))]) ∧
  runningExecutions (orch (fst (step rt (CallExecuteTool toolName params ctx prio eid))))
    = runningExecutions (orch rt) ∧
  executionQueue (orch (fst (step rt (CallExecuteTool toolName params ctx prio eid))))
    = executionQueue (orch rt).
Proof.
  intros Hl. simpl. unfold executeTool. by rewrite Hl.
Qed.

Lemma unknown_tool_fails_fast_witness :
  lookupTool (orch waitingRuntime) "linter" = None ∧
  step waitingRuntime (CallExecuteTool "linter" goodParams (sampleContext "D") None "exec_4") =
    (waitingRuntime,
     [Completed ByCaller "linter" (sampleContext "D")
        (Thrown (ThrownError "Tool not found: linter"))]).
Proof.
  assert (H0 : lookupTool (orch waitingRuntime) "linter" = None) by (vm_compute; reflexivity).
  split; [exact H0 |].
  exact (proj1 (unknown_tool_fails_fast waitingRuntime "linter" goodParams
                  (sampleContext "D") None "exec_4" H0)).
Defined.

(** C8 (last registration wins).  [registerTool] stores the tool under its
    name whatever was registered there before, and raises nothing; the
    lookup of that name then yields this tool, and the next [executeTool]
    for the name works with it. *)
Theorem register_last_write_wins (rt : Runtime) (t : Tool)
    (params : ToolParameters) (ctx : AgentContext) (prio : option Z)
    (eid : string) :
  let rt1 := fst (step rt (CallRegisterTool t)) in
  snd (step rt (CallRegisterTool t)) = [] ∧
  tools (orch rt1) = <[name t := t]> (tools (orch rt)) ∧
  lookupTool (orch rt1) (name t) = Some t ∧
  lookupTool (registerTool (orch rt) t) (name t) = Some t ∧
  step rt1 (CallExecuteTool (name t) params ctx prio eid) =
    if atCapacity rt1
    then (backlog rt1 t (name t) params ctx (default 5 prio), [])
    else (startExecution rt1 ByCaller t (name t) params ctx eid, []).
Proof.
  simpl. unfold lookupTool, executeTool, lookupTool. simpl.
  rewrite lookup_insert_eq. done.
Qed.

(** C10 (the drain promotes one entry).  When the queue is not empty and
    fewer than the maximum are running, [processQueue] removes the head of
    the queue, and only the head, and calls [executeTool] for it, which
    starts one activation for it if its tool is registered; otherwise
    [processQueue] changes nothing. *)
Theorem processQueue_promotes_head (rt : Runtime) (eid : string) :
  (∀ e rest,
      executionQueue (orch rt) = e :: rest →
      Z.of_nat (size (runningExecutions (orch rt))) < maxConcurrent (config (orch rt)) →
      processQueue rt eid =
        executeTool (setQueue rest rt) ByDrain (name (tool e)) (parameters e)
          (context e) (priority e) eid ∧
      executionQueue (orch (fst (processQueue rt eid))) = rest ∧
      (∀ t, lookupTool (orch rt) (name (tool e)) = Some t →
         processQueue rt eid =
           (startExecution (setQueue rest rt) ByDrain t (name (tool e)) (parameters e)
              (context e) eid, []))) ∧
  (executionQueue (orch rt) = [] ∨
     maxConcurrent (config (orch rt)) ≤ Z.of_nat (size (runningExecutions (orch rt))) →
   processQueue rt eid = (rt, [])).
Proof.
  split.
  - intros e rest Hq Hlt. unfold processQueue. rewrite Hq.
    rewrite bool_decide_eq_true_2 by done.
    assert (Hcap : atCapacity (setQueue rest rt) = false).
    { unfold atCapacity. simpl. apply bool_decide_eq_false. lia. }
    split_and!; [done | |].
    + unfold executeTool. rewrite Hcap.
      by destruct (lookupTool _ _).
    + intros t Ht. unfold executeTool. rewrite Hcap.
      change (lookupTool (orch (setQueue rest rt)) (name (tool e)))
        with (lookupTool (orch rt) (name (tool e))).
      by rewrite Ht.
  - intros Hidle. unfold processQueue.
    destruct (executionQueue (orch rt)) as [|e rest]; [done |].
    destruct Hidle as [? | Hfull]; [done |].
    rewrite bool_decide_eq_false_2 by lia. done.
Qed.

Lemma processQueue_promotes_head_witness :
  executionQueue (orch releasedRuntime) = entryC :: [entryB] ∧
  Z.of_nat (size (runningExecutions (orch releasedRuntime)))
    < maxConcurrent (config (orch releasedRuntime)) ∧
  executionQueue (orch (fst (processQueue releasedRuntime "exec_4"))) = [entryB] ∧
  executionQueue (orch busyRuntime) = [] ∧
  processQueue busyRuntime "exec_2" = (busyRuntime, []).
Proof.
  assert (Hq : executionQueue (orch releasedRuntime) = entryC :: [entryB])
    by (vm_compute; reflexivity).
  assert (Hlt : Z.of_nat (size (runningExecutions (orch releasedRuntime)))
                < maxConcurrent (config (orch releasedRuntime)))
    by (vm_compute; reflexivity).
  assert (Hq0 : executionQueue (orch busyRuntime) = []) by (vm_compute; reflexivity).
  split; [exact Hq |]. split; [exact Hlt |]. split; [| split; [exact Hq0 |]].
  - exact (proj1 (proj2 (proj1 (processQueue_promotes_head releasedRuntime "exec_4")
                           entryC [entryB] Hq Hlt))).
  - exact (proj2 (processQueue_promotes_head busyRuntime "exec_2") (or_introl Hq0)).
Defined.

(** C4 (priority order of the backlog).  In every state reached from a new
    orchestrator the execution queue is sorted by descending priority; an
    entry that joins it is put behind every entry of the same or a higher
    priority and before the entries of lower priority, so that entries of
    equal priority stay in their order of arrival; every step keeps the
    queue, or lets one entry join it, or promotes its head, which is not
    lower in priority than the entries that remain; and, when every
    activation gets an identifier of its own, no request is admitted past a
    non-empty queue, because then no slot is free. *)
Theorem priority_ordering (c : ToolsConfig) (evs : list Event) :
  let rt := fst (run (newRuntime c) evs) in
  StronglySorted notLower (executionQueue (orch rt)) ∧
  (∀ e, ∃ l1 l2,
      executionQueue (orch rt) = l1 ++ l2 ∧
      enqueue (executionQueue (orch rt)) e = l1 ++ e :: l2 ∧
      Forall (λ y, priority e ≤ priority y) l1 ∧
      Forall (λ y, priority y < priority e) l2) ∧
  (∀ ev, queueChange rt (fst (step rt ev))) ∧
  (freshIds evs → executionQueue (orch rt) ≠ [] → atCapacity rt = true).
Proof.
  intros rt.
  pose proof (run_reachable c evs) as Hreach. fold rt in Hreach.
  pose proof (sorted_reachable c rt Hreach) as Hs.
  split_and!.
  - done.
  - intros e. by apply enqueue_sorted_split.
  - intros ev. by eapply step_queueChange.
  - intros Hfresh Hne.
    destruct (run_new_fresh c evs Hfresh) as (used & _ & Hsat).
    unfold atCapacity. apply bool_decide_eq_true. by apply Hsat.
Qed.

Lemma priority_ordering_witness :
  freshIds waitingTrace ∧
  executionQueue (orch waitingRuntime) ≠ [] ∧
  atCapacity waitingRuntime = true.
Proof.
  assert (Hf : freshIds waitingTrace).
  { unfold freshIds. apply (bool_decide_unpack _). vm_compute. exact I. }
  assert (Hq : executionQueue (orch waitingRuntime) ≠ []).
  { vm_compute. discriminate. }
  split; [exact Hf |]. split; [exact Hq |].
  exact (proj2 (proj2 (proj2 (priority_ordering (sampleConfig 1) waitingTrace))) Hf Hq).
Defined.

(** C5 (no capacity leak).  However a suspended activation ends (its
    validation rejects or throws, its tool succeeds, reports a failure or
    throws, the assignment of the execution time throws, or the timeout
    wins), the [finally] block runs.  First the identifier of the
    activation leaves the running set, which takes the slot back that the
    admission took.  Then the queue is looked at again: when it is empty,
    or no slot is free even now, nothing else changes; otherwise its head
    leaves the queue and an activation is started for it, which takes a
    slot under the identifier that [generateExecutionId] supplies. *)
Theorem no_capacity_leak (rt : Runtime) (i : nat) (t : Task) (now : Z)
    (eid : string) :
  tasks rt !! i = Some t →
  (∀ w, task_phase t = Validating →
        validate (task_tool t) (task_parameters t) w ≠ Fulfilled true →
        ∃ r, step rt (ValidateSettles i w now eid) = finish rt i t (Returned r) eid) ∧
  (∀ startTime win, task_phase t = Racing startTime →
        step rt (RaceSettles i win now eid) =
          finish rt i t
            (Returned (raceOutcome (config (orch rt)) t win (now - startTime))) eid) ∧
  (runningExecutions (orch (release rt i t))
    = runningExecutions (orch rt) ∖ {[task_executionId t]}) ∧
  (task_executionId t ∉ runningExecutions (orch (release rt i t))) ∧
  (task_executionId t ∈ runningExecutions (orch rt) →
     S (size (runningExecutions (orch (release rt i t))))
       = size (runningExecutions (orch rt))) ∧
  (∀ c evs, freshIds evs → rt = fst (run (newRuntime c) evs) →
     task_executionId t ∈ runningExecutions (orch rt)) ∧
  (∀ rt0 o tl toolName params ctx,
     rt = startExecution rt0 o tl toolName params ctx (task_executionId t) →
     i = length (tasks rt0) →
     task_executionId t ∉ runningExecutions (orch rt0) →
     runningExecutions (orch (release rt i t)) = runningExecutions (orch rt0)) ∧
  (∀ r,
     executionQueue (orch rt) = [] ∨
     maxConcurrent (config (orch rt))
       ≤ Z.of_nat (size (runningExecutions (orch rt) ∖ {[task_executionId t]})) →
     fst (finish rt i t r eid) = release rt i t) ∧
  (∀ r e rest tl,
     executionQueue (orch rt) = e :: rest →
     Z.of_nat (size (runningExecutions (orch rt) ∖ {[task_executionId t]}))
       < maxConcurrent (config (orch rt)) →
     lookupTool (orch rt) (name (tool e)) = Some tl →
     let rt' := fst (finish rt i t r eid) in
     executionQueue (orch rt') = rest ∧
     runningExecutions (orch rt')
       = {[eid]} ∪ runningExecutions (orch rt) ∖ {[task_executionId t]} ∧
     tasks rt' =
       delete i (tasks rt) ++
         [{| task_executionId := eid; task_toolName := name (tool e);
             task_tool := tl; task_parameters := parameters e;
             task_context := context e; task_origin := ByDrain;
             task_phase := Validating |}]).
Proof.
  intros Hi. split_and!.
  - intros w Hph Hv. simpl. unfold afterValidate. rewrite Hi, Hph.
    destruct (validate _ _ _) as [[]|e]; [done | eauto ..].
  - intros startTime win Hph. simpl. unfold afterRace. by rewrite Hi, Hph.
  - done.
  - simpl. intros [_ Hn]%elem_of_difference. apply Hn. by apply elem_of_singleton.
  - intros Hin. simpl. by apply size_remove_elem.
  - intros c evs Hfresh ->.
    destruct (run_new_fresh c evs Hfresh) as (used & Hc & _).
    eapply (proj1 (Forall_forall _ _) (coherent_tasks _ _ Hc)),
      list_elem_of_lookup_2, Hi.
  - intros rt0 o tl toolName params ctx -> -> Hnot. simpl.
    by apply add_then_remove.
  - intros r Hidle. rewrite finish_state. unfold processQueue. simpl.
    destruct (executionQueue (orch rt)) as [|e rest]; [done |].
    destruct Hidle as [? | Hfull]; [done |].
    by rewrite bool_decide_eq_false_2 by lia.
  - intros r e rest tl Hq Hlt Hl rt'. subst rt'.
    rewrite finish_state. unfold processQueue. simpl. rewrite Hq.
    rewrite bool_decide_eq_true_2 by done.
    unfold executeTool, lookupTool, atCapacity. simpl.
    unfold lookupTool in Hl. rewrite Hl.
    by rewrite bool_decide_eq_false_2 by lia.
Qed.

Lemma no_capacity_leak_witness :
  tasks contendedRuntime !! 0%nat = Some racingTaskA ∧
  executionQueue (orch contendedRuntime) = [entryC; entryB] ∧
  (∀ win,
     step contendedRuntime (RaceSettles 0 win 150 "exec_5") =
       finish contendedRuntime 0 racingTaskA
         (Returned (raceOutcome (config (orch contendedRuntime)) racingTaskA win (150 - 100)))
         "exec_5") ∧
  (task_executionId racingTaskA
     ∉ runningExecutions (orch (release contendedRuntime 0 racingTaskA))) ∧
  size (runningExecutions (orch (release contendedRuntime 0 racingTaskA))) = 0%nat ∧
  (∀ r,
     let rt' := fst (finish contendedRuntime 0 racingTaskA r "exec_5") in
     executionQueue (orch rt') = [entryB] ∧
     runningExecutions (orch rt') = {[ "exec_5" ]} ∪ ({[ "exec_1" ]} ∖ {[ "exec_1" ]}) ∧
     tasks rt' = [promotedTaskC]).
Proof.
  assert (Hi : tasks contendedRuntime !! 0%nat = Some racingTaskA)
    by (vm_compute; reflexivity).
  assert (Hq : executionQueue (orch contendedRuntime) = [entryC; entryB])
    by (vm_compute; reflexivity).
  assert (Hrun : runningExecutions (orch contendedRuntime) = {[ "exec_1" ]})
    by reflexivity.
  assert (Hlt : Z.of_nat (size (runningExecutions (orch contendedRuntime)
                                  ∖ {[task_executionId racingTaskA]}))
                < maxConcurrent (config (orch contendedRuntime)))
    by (vm_compute; reflexivity).
  assert (Hl : lookupTool (orch contendedRuntime) (name (tool entryC))
               = Some (probeTool "probe")) by (vm_compute; reflexivity).
  pose proof (no_capacity_leak contendedRuntime 0 racingTaskA 150 "exec_5" Hi)
    as (_ & Hrace & _ & Hout & Hsize & _ & _ & _ & Hdrain).
  split; [exact Hi |]. split; [exact Hq |]. split; [| split; [| split]].
  - intros win. exact (Hrace 100 win eq_refl).
  - exact Hout.
  - assert (Hin : task_executionId racingTaskA ∈ runningExecutions (orch contendedRuntime)).
    { apply (bool_decide_unpack _). vm_compute. exact I. }
    specialize (Hsize Hin).
    assert (Hone : size (runningExecutions (orch contendedRuntime)) = 1%nat)
      by (vm_compute; reflexivity).
    rewrite Hone in Hsize. lia.
  - intros r. exact (Hdrain r entryC [entryB] (probeTool "probe") Hq Hlt Hl).
Defined.




(** C7, as stated, fails.  The tool of session A reports a failure in the
    result it returns, with an empty message and no [errors]; that result
    is what [executeTool] hands to the caller, with only the execution
    time set. *)
Lemma reported_failure_is_passed_through :
  tasks racingRuntime !! 0%nat = Some racingTaskA ∧
  execute (probeTool "probe") goodParams 1 =
    Fulfilled {| success := false; data := None; message := "";
                 executionTime := 0; errors := None; readOnly := None |} ∧
  snd (step racingRuntime (RaceSettles 0 (ExecuteSettled 1) 150 "exec_3")) =
    [Completed ByCaller "probe" (sampleContext "A")
       (Returned {| success := false; data := None; message := "";
                    executionTime := 50; errors := None; readOnly := None |})] ∧
  ¬ (∃ r,
       deliversResult
         (snd (step racingRuntime (RaceSettles 0 (ExecuteSettled 1) 150 "exec_3")))
         racingTaskA r ∧
       success r = false ∧ message r ≠ "" ∧
       ∃ l, errors r = Some l ∧ l ≠ []).
Proof.
  assert (Hls : snd (step racingRuntime (RaceSettles 0 (ExecuteSettled 1) 150 "exec_3")) =
    [Completed ByCaller "probe" (sampleContext "A")
       (Returned {| success := false; data := None; message := "";
                    executionTime := 50; errors := None; readOnly := None |})])
    by (vm_compute; reflexivity).
  split; [vm_compute; reflexivity |]. split; [vm_compute; reflexivity |].
  split; [exact Hls |].
  intros (r & Hd & _ & Hm & _). rewrite Hls in Hd.
  apply deliversResult_single in Hd. subst r. by apply Hm.
Qed.

(** C7, amended.  When the race of an admitted activation settles, the
    caller always receives a result and never an exception.  If the
    timeout won, if [execute] threw, or if [execute] returned an object
    that refuses the assignment of the execution time, the result has
    [success = false], the non-empty message
    "Tool execution failed: <error>" and the one error in [errors]; the
    timeout is printed as a number is, in decimal digits up to 2^53.  If
    [execute] returned any other result, also one that reports a failure,
    the caller receives that result with the execution time set: its
    flag, message and [errors] are those that the tool supplied. *)
Theorem failures_are_results (rt : Runtime) (i : nat) (t : Task)
    (startTime : Z) (win : RaceWinner) (now : Z) (eid : string) :
  tasks rt !! i = Some t →
  task_phase t = Racing startTime →
  ∃ r,
    deliversResult (snd (step rt (RaceSettles i win now eid))) t r ∧
    (win = TimerFired →
       success r = false ∧ message r ≠ "" ∧
       message r = "Tool execution failed: Tool execution timeout after "
                   +:+ Number_toString (timeoutMs (config (orch rt))) +:+ "ms" ∧
       errors r = Some ["Tool execution timeout after "
                        +:+ Number_toString (timeoutMs (config (orch rt))) +:+ "ms"] ∧
       (0 ≤ timeoutMs (config (orch rt)) < 2 ^ 53 →
          Number_toString (timeoutMs (config (orch rt)))
            = pretty (timeoutMs (config (orch rt))))) ∧
    (∀ w e, win = ExecuteSettled w →
       execute (task_tool t) (task_parameters t) w = RejectedWith e →
       success r = false ∧ message r ≠ "" ∧
       message r = "Tool execution failed: " +:+ errorText e ∧
       errors r = Some [errorText e]) ∧
    (∀ w r0 e, win = ExecuteSettled w →
       execute (task_tool t) (task_parameters t) w = Fulfilled r0 →
       readOnly r0 = Some e →
       success r = false ∧ message r ≠ "" ∧
       message r = "Tool execution failed: " +:+ errorText e ∧
       errors r = Some [errorText e]) ∧
    (∀ w r0, win = ExecuteSettled w →
       execute (task_tool t) (task_parameters t) w = Fulfilled r0 →
       readOnly r0 = None →
       r = withExecutionTime r0 (now - startTime) ∧
       success r = success r0 ∧ message r = message r0 ∧ errors r = errors r0).
Proof.
  intros Hi Hph.
  exists (raceOutcome (config (orch rt)) t win (now - startTime)).
  split_and!.
  - rewrite (afterRace_finish _ _ _ _ _ _ _ Hi Hph). apply finish_delivers.
  - intros ->. split_and!; try done. apply Number_toString_safe.
  - intros w e -> He. unfold raceOutcome, race. by rewrite He.
  - intros w r0 e -> Hr Hro. unfold raceOutcome, race, assignExecutionTime.
    by rewrite Hr, Hro.
  - intros w r0 -> Hr Hro. unfold raceOutcome, race, assignExecutionTime.
    by rewrite Hr, Hro.
Qed.

Lemma failures_are_results_witness :
  tasks racingRuntime !! 0%nat = Some racingTaskA ∧
  task_phase racingTaskA = Racing 100 ∧
  (∃ r,
    deliversResult (snd (step racingRuntime (RaceSettles 0 TimerFired 150 "exec_3")))
      racingTaskA r ∧
    success r = false ∧
    message r = "Tool execution failed: Tool execution timeout after 50ms") ∧
  tasks frozenRuntime !! 0%nat = Some frozenTask ∧
  (∃ r,
    deliversResult
      (snd (step frozenRuntime (RaceSettles 0 (ExecuteSettled 0) 150 "exec_3")))
      frozenTask r ∧
    success r = false ∧
    errors r = Some ["Cannot assign to read only property 'executionTime' of object '#<Object>'"]).
Proof.
  assert (Hi : tasks racingRuntime !! 0%nat = Some racingTaskA)
    by (vm_compute; reflexivity).
  assert (Hj : tasks frozenRuntime !! 0%nat = Some frozenTask)
    by (vm_compute; reflexivity).
  split; [exact Hi |]. split; [reflexivity |]. split; [| split; [exact Hj |]].
  - destruct (failures_are_results racingRuntime 0 racingTaskA 100 TimerFired 150
                "exec_3" Hi eq_refl) as (r & Hd & Ht & _).
    exists r. split; [exact Hd |].
    destruct (Ht eq_refl) as (Hs & _ & Hm & _).
    split; [exact Hs | exact Hm].
  - destruct (failures_are_results frozenRuntime 0 frozenTask 100 (ExecuteSettled 0) 150
                "exec_3" Hj eq_refl) as (r & Hd & _ & _ & Hro & _).
    exists r. split; [exact Hd |].
    destruct (Hro 0 frozenResult readOnlyError eq_refl eq_refl eq_refl)
      as (Hs & _ & _ & He).
    split; [exact Hs | exact He].
Defined.

(** C9, as stated, fails.  The race of session A starts at 100 and the
    timeout wins it at 150: the result that the caller receives has
    execution time 0, not the 50 that elapsed. *)
Lemma timeout_reports_no_duration :
  tasks racingRuntime !! 0%nat = Some racingTaskA ∧
  task_phase racingTaskA = Racing 100 ∧
  snd (step racingRuntime (RaceSettles 0 TimerFired 150 "exec_3")) =
    [Completed ByCaller "probe" (sampleContext "A")
       (Returned
          {| success := false; data := None;
             message := "Tool execution failed: Tool execution timeout after 50ms";
             executionTime := 0;
             errors := Some ["Tool execution timeout after 50ms"]; readOnly := None |})] ∧
  ¬ (∃ r,
       deliversResult
         (snd (step racingRuntime (RaceSettles 0 TimerFired 150 "exec_3")))
         racingTaskA r ∧
       executionTime r = 150 - 100).
Proof.
  assert (Hls : snd (step racingRuntime (RaceSettles 0 TimerFired 150 "exec_3")) =
    [Completed ByCaller "probe" (sampleContext "A")
       (Returned
          {| success := false; data := None;
             message := "Tool execution failed: Tool execution timeout after 50ms";
             executionTime := 0;
             errors := Some ["Tool execution timeout after 50ms"]; readOnly := None |})])
    by (vm_compute; reflexivity).
  split; [vm_compute; reflexivity |]. split; [reflexivity |].
  split; [exact Hls |].
  intros (r & Hd & Ht). rewrite Hls in Hd.
  apply deliversResult_single in Hd. subst r. discriminate Ht.
Qed.

(** C9, amended.  When [execute] settles first and returns a result that
    takes the assignment, the caller receives it with [executionTime] set
    to the time that elapsed between the start of the race and its end,
    and with the success flag and the other fields that the tool
    supplied.  When the result refuses the assignment, when the timeout
    wins, when [execute] throws, and when the validation rejects the
    parameters or throws, the caller receives a result with
    [success = false] and [executionTime = 0]. *)
Theorem execution_time_recorded (rt : Runtime) (i : nat) (t : Task)
    (now : Z) (eid : string) :
  tasks rt !! i = Some t →
  (∀ startTime w r0,
     task_phase t = Racing startTime →
     execute (task_tool t) (task_parameters t) w = Fulfilled r0 →
     readOnly r0 = None →
     ∃ r, deliversResult (snd (step rt (RaceSettles i (ExecuteSettled w) now eid))) t r ∧
          executionTime r = now - startTime ∧
          success r = success r0 ∧ data r = data r0 ∧
          message r = message r0 ∧ errors r = errors r0) ∧
  (∀ startTime w r0,
     task_phase t = Racing startTime →
     execute (task_tool t) (task_parameters t) w = Fulfilled r0 →
     readOnly r0 ≠ None →
     ∃ r, deliversResult (snd (step rt (RaceSettles i (ExecuteSettled w) now eid))) t r ∧
          executionTime r = 0 ∧ success r = false) ∧
  (∀ startTime w e,
     task_phase t = Racing startTime →
     execute (task_tool t) (task_parameters t) w = RejectedWith e →
     ∃ r, deliversResult (snd (step rt (RaceSettles i (ExecuteSettled w) now eid))) t r ∧
          executionTime r = 0 ∧ success r = false) ∧
  (∀ startTime,
     task_phase t = Racing startTime →
     ∃ r, deliversResult (snd (step rt (RaceSettles i TimerFired now eid))) t r ∧
          executionTime r = 0 ∧ success r = false) ∧
  (∀ w,
     task_phase t = Validating →
     validate (task_tool t) (task_parameters t) w ≠ Fulfilled true →
     ∃ r, deliversResult (snd (step rt (ValidateSettles i w now eid))) t r ∧
          executionTime r = 0 ∧ success r = false).
Proof.
  intros Hi. split_and!.
  - intros startTime w r0 Hph Hr Hro. exists (withExecutionTime r0 (now - startTime)).
    split; [| done].
    rewrite (afterRace_finish _ _ _ _ _ _ _ Hi Hph).
    unfold raceOutcome, race, assignExecutionTime. rewrite Hr, Hro.
    apply finish_delivers.
  - intros startTime w r0 Hph Hr Hro.
    destruct (readOnly r0) as [e|] eqn:He; [| done].
    exists (failureResult e). split; [| done].
    rewrite (afterRace_finish _ _ _ _ _ _ _ Hi Hph).
    unfold raceOutcome, race, assignExecutionTime. rewrite Hr, He.
    apply finish_delivers.
  - intros startTime w e Hph Hr. exists (failureResult e). split; [| done].
    rewrite (afterRace_finish _ _ _ _ _ _ _ Hi Hph).
    unfold raceOutcome, race. rewrite Hr. apply finish_delivers.
  - intros startTime Hph.
    exists (failureResult (timeoutError (timeoutMs (config (orch rt))))).
    split; [| done].
    rewrite (afterRace_finish _ _ _ _ _ _ _ Hi Hph). apply finish_delivers.
  - intros w Hph Hv.
    destruct (validate (task_tool t) (task_parameters t) w) as [[]|e] eqn:He;
      [done | |].
    + exists (failureResult (invalidParametersError (task_toolName t))).
      split; [| done].
      rewrite (afterValidate_rejected _ _ _ _ _ _ Hi Hph He). apply finish_delivers.
    + exists (failureResult e). split; [| done].
      rewrite (afterValidate_threw _ _ _ _ _ _ _ Hi Hph He). apply finish_delivers.
Qed.

Lemma execution_time_recorded_witness :
  tasks racingRuntime !! 0%nat = Some racingTaskA ∧
  task_phase racingTaskA = Racing 100 ∧
  execute (task_tool racingTaskA) (task_parameters racingTaskA) 0 =
    Fulfilled (probeResult true "Probe completed") ∧
  readOnly (probeResult true "Probe completed") = None ∧
  (∃ r,
    deliversResult
      (snd (step racingRuntime (RaceSettles 0 (ExecuteSettled 0) 150 "exec_3")))
      racingTaskA r ∧
    executionTime r = 50 ∧ success r = true) ∧
  tasks frozenRuntime !! 0%nat = Some frozenTask ∧
  execute (task_tool frozenTask) (task_parameters frozenTask) 0 = Fulfilled frozenResult ∧
  readOnly frozenResult ≠ None ∧
  (∃ r,
    deliversResult
      (snd (step frozenRuntime (RaceSettles 0 (ExecuteSettled 0) 150 "exec_3")))
      frozenTask r ∧
    executionTime r = 0 ∧ success r = false).
Proof.
  assert (Hi : tasks racingRuntime !! 0%nat = Some racingTaskA)
    by (vm_compute; reflexivity).
  assert (Hj : tasks frozenRuntime !! 0%nat = Some frozenTask)
    by (vm_compute; reflexivity).
  assert (Hro : readOnly frozenResult ≠ None) by discriminate.
  split; [exact Hi |]. split; [reflexivity |]. split; [reflexivity |].
  split; [reflexivity |]. split; [| split; [exact Hj |]].
  - destruct (proj1 (execution_time_recorded racingRuntime 0 racingTaskA 150 "exec_3" Hi)
                100 0 (probeResult true "Probe completed") eq_refl eq_refl eq_refl)
      as (r & Hd & Ht & Hs & _).
    exists r. split; [exact Hd |]. split; [exact Ht | exact Hs].
  - split; [reflexivity |]. split; [exact Hro |].
    exact (proj1 (proj2 (execution_time_recorded frozenRuntime 0 frozenTask 150
                           "exec_3" Hj))
             100 0 frozenResult eq_refl eq_refl Hro).
Defined.

(** C6: what the code does with a single submission.  Session B submits
    once, while the only slot is taken.  The drain starts its request when
    the slot is freed; the retry timer of the same request then puts it
    into the queue again, so that it is in the queue and running at the
    same time; and when the first run has ended the drain starts it once
    more: [execute] is called twice for the one submission. *)
Theorem single_submission_runs_twice :
  freshIds doubleTrace ∧
  submittedSessions doubleTrace = ["A"; "B"] ∧
  (let rt := fst (run (newRuntime (defaultConfig 1)) (take 7 doubleTrace)) in
   queuedSessions rt = ["B"] ∧ activeSessions rt = ["B"]) ∧
  executedSessions (snd (run (newRuntime (defaultConfig 1)) doubleTrace))
    = ["A"; "B"; "B"].
Proof.
  split; [unfold freshIds; apply (bool_decide_unpack _); vm_compute; exact I |].
  split; [vm_compute; reflexivity |].
  split; [cbv zeta; split; vm_compute; reflexivity | vm_compute; reflexivity].
Qed.

(** ** The built-in tools *)

Lemma getProperty_insert_ne (params : ToolParameters) (k k' : string) (v : JsValue) :
  k ≠ k' → getProperty (<[k := v]> params) k' = getProperty params k'.
Proof. intros Hne. unfold getProperty. by rewrite lookup_insert_ne. Qed.

Lemma getProperty_delete_ne (params : ToolParameters) (k k' : string) :
  k ≠ k' → getProperty (delete k params) k' = getProperty params k'.
Proof. intros Hne. unfold getProperty. by rewrite lookup_delete_ne. Qed.

Lemma countNewlines_nonneg (s : string) : 0 ≤ countNewlines s.
Proof. induction s as [|c s IH]; simpl; [done |]. case_bool_decide; lia. Qed.

Lemma randomBelow_range (n : Z) (w : Oracle) :
  0 < n → 0 ≤ (randomBelow n w).1 < n.
Proof. intros Hn. simpl. by apply Z.mod_pos_bound. Qed.

(** X1.  A built-in tool reads no parameter but its own: setting or
    deleting any other key changes neither the outcome of [validate] nor
    that of [execute]; and [validate] never throws and does not depend on
    the environment. *)
Theorem builtin_tools_read_only_their_keys (t : Tool) (ks : list string)
    (params : ToolParameters) (k : string) (v : JsValue) (w w' : Oracle) :
  (t, ks) ∈ readKeys →
  k ∉ ks →
  validate t (<[k := v]> params) w = validate t params w ∧
  validate t (delete k params) w = validate t params w ∧
  execute t (<[k := v]> params) w = execute t params w ∧
  execute t (delete k params) w = execute t params w ∧
  validate t params w = validate t params w' ∧
  ∃ b, validate t params w = Fulfilled b.
Proof.
  intros Hin Hk. unfold readKeys in Hin.
  repeat (apply elem_of_cons in Hin as [Heq | Hin];
          [injection Heq as -> -> |]);
    [.. | by apply elem_of_nil in Hin];
    repeat (apply not_elem_of_cons in Hk as [? Hk]);
    simpl;
    rewrite ?getProperty_insert_ne, ?getProperty_delete_ne by done;
    eauto 10.
Qed.

Lemma builtin_tools_read_only_their_keys_witness :
  (SecurityScannerTool, ["target"]) ∈ readKeys ∧
  ("scanType" ∉ ["target"]) ∧
  validate SecurityScannerTool
    (<["scanType" := JsString "comprehensive"]> {[ "target" := JsString "src/api/" ]}) 0
  = validate SecurityScannerTool {[ "target" := JsString "src/api/" ]} 0.
Proof.
  assert (Hin : (SecurityScannerTool, ["target"]) ∈ readKeys).
  { unfold readKeys. rewrite !elem_of_cons. auto 10. }
  assert (Hk : "scanType" ∉ ["target"]).
  { intros Hk. apply list_elem_of_singleton in Hk. discriminate Hk. }
  split; [exact Hin |]. split; [exact Hk |].
  exact (proj1 (builtin_tools_read_only_their_keys SecurityScannerTool ["target"]
                  {[ "target" := JsString "src/api/" ]} "scanType"
                  (JsString "comprehensive") 0 0 Hin Hk)).
Defined.

Lemma validated_builtin_execute_ok (t : Tool)
    (params : ToolParameters) (w w' : Oracle) :
  t ∈ builtinTools →
  validate t params w = Fulfilled true →
  ∃ r, execute t params w' = Fulfilled r ∧
       success r = true ∧ executionTime r = 0 ∧ errors r = None ∧
       is_Some (data r).
Proof.
  intros Hin Hv. unfold builtinTools in Hin.
  repeat (apply elem_of_cons in Hin as [-> | Hin]);
    [.. | by apply elem_of_nil in Hin]; simpl in *.
  - destruct (getProperty params "code") as [| | | |code| |]; try done.
    eexists. split; [done |]. by repeat split.
  - eexists. split; [done |]. by repeat split.
  - destruct (getProperty params "source") as [| | | |source| |]; try done.
    eexists. split; [done |]. by repeat split.
  - eexists. split; [done |]. by repeat split.
  - eexists. split; [done |]. by repeat split.
  - eexists. split; [done |]. by repeat split.
Qed.

(** X2.  Parameters that the validator of a built-in tool accepts never
    make its [execute] throw: whatever the environment, [execute] returns
    a result with [success = true], a payload, execution time 0 and no
    [errors]. *)
Theorem builtin_tools_succeed_on_validated_parameters (t : Tool)
    (params : ToolParameters) (w w' : Oracle) :
  t ∈ builtinTools →
  validate t params w = Fulfilled true →
  ∃ r, execute t params w' = Fulfilled r ∧
       success r = true ∧ executionTime r = 0 ∧ errors r = None ∧
       is_Some (data r) ∧ message r ≠ "".
Proof.
  intros Hin Hv.
  destruct (validated_builtin_execute_ok t params w w' Hin Hv)
    as (r & Hr & Hs & Ht & He & Hd).
  exists r. split_and!; try done.
  unfold builtinTools in Hin.
  repeat (apply elem_of_cons in Hin as [-> | Hin]);
    [.. | by apply elem_of_nil in Hin]; simpl in *.
  - destruct (getProperty params "code"); try done. by injection Hr as <-.
  - injection Hr as <-. simpl.
    by destruct (toJsString (getProperty params "action")).
  - destruct (getProperty params "source"); try done. by injection Hr as <-.
  - by injection Hr as <-.
  - by injection Hr as <-.
  - by injection Hr as <-.
Qed.

Lemma builtin_tools_succeed_on_validated_parameters_witness :
  CodeAnalysisTool ∈ builtinTools ∧
  validate CodeAnalysisTool (reviewParams "let x = 1;") 0 = Fulfilled true ∧
  ∃ r, execute CodeAnalysisTool (reviewParams "let x = 1;") 7 = Fulfilled r ∧
       success r = true.
Proof.
  assert (Hin : CodeAnalysisTool ∈ builtinTools) by (unfold builtinTools; left).
  assert (Hv : validate CodeAnalysisTool (reviewParams "let x = 1;") 0 = Fulfilled true)
    by (vm_compute; reflexivity).
  split; [exact Hin |]. split; [exact Hv |].
  destruct (builtin_tools_succeed_on_validated_parameters CodeAnalysisTool
              (reviewParams "let x = 1;") 0 7 Hin Hv) as (r & Hr & Hs & _).
  exists r. split; [exact Hr | exact Hs].
Defined.

(** X3.  For a [code] parameter that is a string, the code analysis
    reports one line more than the code has line feeds (so at least one),
    a complexity between 1 and 10, a maintainability index between 0 and
    99 and a technical debt between 0 and 4; for any other [code] it
    throws a [TypeError]. *)
Theorem code_analysis_metrics (params : ToolParameters) (w : Oracle) :
  (∀ code, getProperty params "code" = JsString code →
     ∃ r, execute CodeAnalysisTool params w = Fulfilled r ∧
          dataField r "linesOfCode" = Some (JsNumber (countNewlines code + 1)) ∧
          1 ≤ countNewlines code + 1 ∧
          numberIn 1 10 (dataField r "complexity") ∧
          numberIn 0 99 (dataField r "maintainabilityIndex") ∧
          numberIn 0 4 (dataField r "technicalDebt")) ∧
  (isString (getProperty params "code") = false →
     ∃ msg, execute CodeAnalysisTool params w = RejectedWith (ThrownError msg)).
Proof.
  split.
  - intros code Hc. simpl. rewrite Hc. eexists. split; [done |].
    pose proof (countNewlines_nonneg code).
    pose proof (Z.mod_pos_bound w 10).
    pose proof (Z.mod_pos_bound (w / 10) 100).
    pose proof (Z.mod_pos_bound (w / 10 / 100) 5).
    split_and!; [done | lia | ..]; eexists; (split; [reflexivity | lia]).
  - intros Hs. simpl.
    destruct (getProperty params "code"); try done; simpl; eauto.
Qed.

Lemma code_analysis_metrics_witness :
  getProperty (reviewParams "let x = 1;") "code" = JsString "let x = 1;" ∧
  ∃ r, execute CodeAnalysisTool (reviewParams "let x = 1;") 7 = Fulfilled r ∧
       dataField r "linesOfCode" = Some (JsNumber 1) ∧
       numberIn 1 10 (dataField r "complexity").
Proof.
  assert (Hc : getProperty (reviewParams "let x = 1;") "code" = JsString "let x = 1;")
    by (vm_compute; reflexivity).
  split; [exact Hc |].
  destruct (proj1 (code_analysis_metrics (reviewParams "let x = 1;") 7) _ Hc)
    as (r & Hr & Hl & _ & Hx & _).
  exists r. split; [exact Hr |]. split; [exact Hl | exact Hx].
Defined.

(** X4.  Whatever the parameters and the environment, the test runner
    reports between 45 and 94 passed tests, between 0 and 4 failed ones
    and a coverage between 80 and 99; the security scanner reports between
    0 and 2 vulnerabilities and one of the risk levels low, medium and
    high; the performance profiler reports a response time between 100
    and 599, a memory usage between 256 and 767 and a CPU utilisation
    between 10 and 89. *)
Theorem simulated_reports_are_in_range (params : ToolParameters) (w : Oracle) :
  (∃ r, execute TestRunnerTool params w = Fulfilled r ∧
        numberIn 45 94 (dataField r "passed") ∧
        numberIn 0 4 (dataField r "failed") ∧
        numberIn 80 99 (dataField r "coverage")) ∧
  (∃ r, execute SecurityScannerTool params w = Fulfilled r ∧
        numberIn 0 2 (dataField r "vulnerabilities") ∧
        (dataField r "riskLevel" = Some (JsString "low") ∨
         dataField r "riskLevel" = Some (JsString "medium") ∨
         dataField r "riskLevel" = Some (JsString "high"))) ∧
  (∃ r, execute PerformanceProfilerTool params w = Fulfilled r ∧
        numberIn 100 599 (dataField r "responseTime") ∧
        numberIn 256 767 (dataField r "memoryUsage") ∧
        numberIn 10 89 (dataField r "cpuUtilization")).
Proof.
  split_and!; simpl; eexists; (split; [reflexivity |]).
  - pose proof (Z.mod_pos_bound w 50).
    pose proof (Z.mod_pos_bound (w / 50) 5).
    pose proof (Z.mod_pos_bound (w / 50 / 5) 20).
    split_and!; eexists; (split; [reflexivity | lia]).
  - pose proof (Z.mod_pos_bound w 3).
    pose proof (Z.mod_pos_bound (w / 3) 3) as Hl.
    split; [eexists; (split; [reflexivity | lia]) |].
    unfold dataField, riskLevelAt. simpl.
    assert (Hcases : (w / 3) mod 3 = 0 ∨ (w / 3) mod 3 = 1 ∨ (w / 3) mod 3 = 2) by lia.
    destruct Hcases as [-> | [-> | ->]]; auto.
  - pose proof (Z.mod_pos_bound w 500).
    pose proof (Z.mod_pos_bound (w / 500) 512).
    pose proof (Z.mod_pos_bound (w / 500 / 512) 80).
    split_and!; eexists; (split; [reflexivity | lia]).
Qed.

(** ** [initialize] and the listing functions *)

Lemma initialize_lookup_builtin (o : ToolOrchestrator) (t : Tool) :
  t ∈ builtinTools → lookupTool (initialize o) (name t) = Some t.
Proof.
  intros Hin. unfold builtinTools in Hin.
  repeat (apply elem_of_cons in Hin as [-> | Hin]);
    [.. | by apply elem_of_nil in Hin];
    unfold initialize, lookupTool; simpl;
    rewrite ?lookup_insert_ne by done; by rewrite lookup_insert_eq.
Qed.

Lemma initialize_lookup_other (o : ToolOrchestrator) (n : string) :
  n ∉ name <$> builtinTools → lookupTool (initialize o) n = lookupTool o n.
Proof.
  intros Hn. simpl in Hn.
  repeat (apply not_elem_of_cons in Hn as [? Hn]).
  unfold initialize, lookupTool. simpl.
  by rewrite !lookup_insert_ne by done.
Qed.

Lemma run_register_all (rt : Runtime) (ts : list Tool) :
  run rt (CallRegisterTool <$> ts) =
    ({| orch := foldl registerTool (orch rt) ts; tasks := tasks rt;
        timers := timers rt |}, []).
Proof.
  revert rt. induction ts as [|t ts IH]; intros rt; simpl.
  - by destruct rt.
  - by rewrite IH.
Qed.

(** X5.  [initialize] registers each of the six built-in tools under its
    name, replacing whatever tool was registered under that name, and
    leaves every other registration, the queue, the running set and the
    configuration as they were; it is the same as six calls of
    [registerTool], so that the orchestrator is in a reachable state
    afterwards. *)
Theorem initialize_registers_builtin_tools (rt : Runtime) :
  (∀ t, t ∈ builtinTools → lookupTool (initialize (orch rt)) (name t) = Some t) ∧
  (∀ n, n ∉ name <$> builtinTools →
        lookupTool (initialize (orch rt)) n = lookupTool (orch rt) n) ∧
  executionQueue (initialize (orch rt)) = executionQueue (orch rt) ∧
  runningExecutions (initialize (orch rt)) = runningExecutions (orch rt) ∧
  config (initialize (orch rt)) = config (orch rt) ∧
  run rt (CallRegisterTool <$> builtinTools) =
    ({| orch := initialize (orch rt); tasks := tasks rt; timers := timers rt |}, []).
Proof.
  split; [intros t; apply initialize_lookup_builtin |].
  split; [intros n; apply initialize_lookup_other |].
  split; [done |]. split; [done |]. split; [done |].
  apply run_register_all.
Qed.

Lemma initialize_registers_builtin_tools_witness :
  let rt := fst (step (newRuntime (defaultConfig 5))
                   (CallRegisterTool customAnalysisTool)) in
  CodeAnalysisTool ∈ builtinTools ∧
  ("probe" ∉ name <$> builtinTools) ∧
  lookupTool (orch rt) "code-analysis" = Some customAnalysisTool ∧
  lookupTool (initialize (orch rt)) "code-analysis" = Some CodeAnalysisTool ∧
  lookupTool (initialize (orch rt)) "probe" = lookupTool (orch rt) "probe".
Proof.
  intros rt.
  assert (Hin : CodeAnalysisTool ∈ builtinTools) by (unfold builtinTools; left).
  assert (Hout : "probe" ∉ name <$> builtinTools).
  { simpl. rewrite !not_elem_of_cons. split_and!; try done. apply not_elem_of_nil. }
  split; [exact Hin |]. split; [exact Hout |].
  split; [vm_compute; reflexivity |].
  split.
  - exact (proj1 (initialize_registers_builtin_tools rt) CodeAnalysisTool Hin).
  - exact (proj1 (proj2 (initialize_registers_builtin_tools rt)) "probe" Hout).
Defined.

Lemma orchestrator_eq (o1 o2 : ToolOrchestrator) :
  config o1 = config o2 → tools o1 = tools o2 →
  executionQueue o1 = executionQueue o2 →
  runningExecutions o1 = runningExecutions o2 → o1 = o2.
Proof. destruct o1, o2. simpl. by intros -> -> -> ->. Qed.

Lemma size_insert_bounds (m : gmap string Tool) (k : string) (v : Tool) :
  (size m ≤ size (<[k := v]> m) ≤ S (size m))%nat.
Proof.
  destruct (m !! k) as [v'|] eqn:Hk.
  - rewrite <- (insert_id m k v' Hk) at 1 3.
    rewrite !map_size_insert_Some by (by rewrite ?lookup_insert_eq); lia.
  - rewrite map_size_insert_None by done. lia.
Qed.

Lemma register_all_size (o : ToolOrchestrator) (ts : list Tool) :
  (size (tools o) ≤ size (tools (foldl registerTool o ts))
   ≤ size (tools o) + length ts)%nat.
Proof.
  revert o. induction ts as [|t ts IH]; intros o; simpl; [lia |].
  specialize (IH (registerTool o t)). simpl in IH.
  pose proof (size_insert_bounds (tools o) (name t) t). lia.
Qed.

(** X6.  [initialize] is idempotent; it adds at most six registrations,
    and on a new orchestrator it leaves exactly six, with pairwise
    distinct names and categories: the listing of the tools is the six
    built-in tools in their order of registration, and the listing by
    category of a built-in tool consists of that tool alone. *)
Theorem initialize_is_idempotent (o : ToolOrchestrator) (c : ToolsConfig) :
  initialize (initialize o) = initialize o ∧
  (size (tools o) ≤ size (tools (initialize o)) ≤ size (tools o) + 6)%nat ∧
  size (tools (initialize (newToolOrchestrator c))) = 6%nat ∧
  getAvailableTools (registerAll [] builtinTools) = builtinTools ∧
  NoDup (name <$> builtinTools) ∧
  NoDup (category <$> builtinTools) ∧
  (∀ t, t ∈ builtinTools →
        getToolsByCategory (registerAll [] builtinTools) (category t) = [t]).
Proof.
  split.
  { assert (Ht : tools (initialize (initialize o)) = tools (initialize o)).
    { apply map_eq. intros n.
      destruct (decide (n ∈ name <$> builtinTools)) as [Hn | Hn].
      - apply list_elem_of_fmap in Hn as (t & -> & Hin).
        pose proof (initialize_lookup_builtin (initialize o) t Hin) as H1.
        pose proof (initialize_lookup_builtin o t Hin) as H2.
        unfold lookupTool in *. by rewrite H1, H2.
      - pose proof (initialize_lookup_other (initialize o) n Hn) as H1.
        by unfold lookupTool in H1. }
    by apply orchestrator_eq. }
  split; [apply (register_all_size o builtinTools) |].
  split.
  { assert (Ht : tools (initialize (newToolOrchestrator c)) =
      <["performance-profiler" := PerformanceProfilerTool]>
        (<["security-scanner" := SecurityScannerTool]>
          (<["test-runner" := TestRunnerTool]>
            (<["documentation-generator" := DocumentationGeneratorTool]>
              (<["github-integration" := GitHubIntegrationTool]>
                (<["code-analysis" := CodeAnalysisTool]> ∅)))))) by reflexivity.
    etrans; [exact (f_equal size Ht) |].
    rewrite !map_size_insert_None;
      [by rewrite map_size_empty
      | by rewrite ?lookup_insert_ne, ?lookup_empty by done ..]. }
  split; [reflexivity |].
  split; [simpl; apply (bool_decide_unpack _); vm_compute; exact I |].
  split; [simpl; apply (bool_decide_unpack _); vm_compute; exact I |].
  intros t Hin. unfold builtinTools in Hin.
  repeat (apply elem_of_cons in Hin as [-> | Hin]);
    [.. | by apply elem_of_nil in Hin]; reflexivity.
Qed.

Lemma initialize_is_idempotent_witness :
  SecurityScannerTool ∈ builtinTools ∧
  getToolsByCategory (registerAll [] builtinTools) "security" = [SecurityScannerTool].
Proof.
  assert (Hin : SecurityScannerTool ∈ builtinTools).
  { unfold builtinTools. rewrite !elem_of_cons. auto 10. }
  split; [exact Hin |].
  exact (proj2 (proj2 (proj2 (proj2 (proj2 (proj2
           (initialize_is_idempotent (newToolOrchestrator (defaultConfig 5))
              (defaultConfig 5))))))) SecurityScannerTool Hin).
Defined.

(** ** The registry in insertion order and the finite map *)

Lemma list_to_map_Map_set (m : ToolMap) (k : string) (v : Tool) :
  (list_to_map (Map_set m k v) : gmap string Tool) = <[k := v]> (list_to_map m).
Proof.
  induction m as [|[k' v'] m IH]; simpl; [done |].
  case_bool_decide as Hk; simpl.
  - subst k'. by rewrite insert_insert_eq.
  - rewrite IH. by apply insert_insert_ne.
Qed.

Lemma Map_get_list_to_map (m : ToolMap) (k : string) :
  Map_get m k = (list_to_map m : gmap string Tool) !! k.
Proof.
  induction m as [|[k' v'] m IH]; simpl; [by rewrite lookup_empty |].
  case_bool_decide as Hk.
  - subst k'. by rewrite lookup_insert_eq.
  - by rewrite lookup_insert_ne.
Qed.

Lemma Map_set_keys (m : ToolMap) (k : string) (v : Tool) :
  (Map_set m k v).*1 = if bool_decide (k ∈ m.*1) then m.*1 else m.*1 ++ [k].
Proof.
  induction m as [|[k' v'] m IH].
  - simpl. destruct (bool_decide (k ∈ [])) eqn:Hb; [| done].
    apply bool_decide_eq_true in Hb. by apply elem_of_nil in Hb.
  - cbn [Map_set fmap list_fmap fst].
    destruct (bool_decide (k' = k)) eqn:Hk.
    + apply bool_decide_eq_true in Hk. subst k'.
      rewrite bool_decide_eq_true_2; [done | left].
    + apply bool_decide_eq_false in Hk.
      cbn [fmap list_fmap fst]. rewrite IH.
      destruct (bool_decide (k ∈ m.*1)) eqn:Hin.
      * apply bool_decide_eq_true in Hin.
        rewrite bool_decide_eq_true_2; [done | by right].
      * apply bool_decide_eq_false in Hin.
        rewrite bool_decide_eq_false_2; [done |].
        intros [-> | ?]%elem_of_cons; done.
Qed.

Lemma Map_set_other (m : ToolMap) (k : string) (v : Tool) (i : nat)
    (e : string * Tool) :
  m !! i = Some e → e.1 ≠ k → Map_set m k v !! i = Some e.
Proof.
  revert i. induction m as [|[k' v'] m IH]; intros i Hi Hne; [done |].
  simpl. destruct i as [|i]; simpl in *.
  - injection Hi as <-. simpl in Hne. by rewrite bool_decide_eq_false_2.
  - case_bool_decide; simpl; [done | by apply IH].
Qed.

(** Keys are the names of the tools stored under them, and no key occurs
    twice. *)
Lemma registerAll_keyed (ts : list Tool) (m : ToolMap) :
  Forall (λ e, e.1 = name e.2) m → NoDup m.*1 →
  Forall (λ e, e.1 = name e.2) (registerAll m ts) ∧ NoDup (registerAll m ts).*1.
Proof.
  revert m. induction ts as [|t ts IH]; intros m Hk Hd; [done |].
  simpl. apply IH.
  - clear IH Hd. induction m as [|[k' v'] m IHm]; simpl.
    + by repeat constructor.
    + apply Forall_cons in Hk as [Hk1 Hk2].
      case_bool_decide; constructor; auto.
  - rewrite Map_set_keys. case_bool_decide as Hin; [done |].
    apply NoDup_app. split_and!; [done | | apply NoDup_singleton].
    intros x Hx ->%list_elem_of_singleton. done.
Qed.

Lemma registerAll_list_to_map (ts : list Tool) (m : ToolMap) (o : ToolOrchestrator) :
  tools o = list_to_map m →
  tools (foldl registerTool o ts) = list_to_map (registerAll m ts).
Proof.
  revert m o. induction ts as [|t ts IH]; intros m o Heq; [done |].
  simpl. apply IH. simpl. by rewrite list_to_map_Map_set, Heq.
Qed.

Lemma registerAll_prefix (ts : list Tool) (m : ToolMap) :
  m.*1 `prefix_of` (registerAll m ts).*1.
Proof.
  revert m. induction ts as [|t ts IH]; intros m; [done |].
  simpl. etrans; [| apply IH].
  rewrite Map_set_keys. case_bool_decide; [done |]. by apply prefix_app_r.
Qed.

(** X7.  The listing functions agree with the registry that [executeTool]
    consults.  After any sequence of registrations on a new orchestrator,
    [getAvailableTools] lists exactly the tools that a lookup by name
    yields, each once and under a name of its own, as many as the
    registry has entries; and [getToolsByCategory] lists exactly those of
    them that have the category. *)
Theorem listing_matches_registry (c : ToolsConfig) (ts : list Tool) :
  let o := foldl registerTool (newToolOrchestrator c) ts in
  let m := registerAll [] ts in
  (∀ n, Map_get m n = lookupTool o n) ∧
  NoDup (name <$> getAvailableTools m) ∧
  (∀ t, t ∈ getAvailableTools m ↔ lookupTool o (name t) = Some t) ∧
  length (getAvailableTools m) = size (tools o) ∧
  (∀ cat t, t ∈ getToolsByCategory m cat ↔
            lookupTool o (name t) = Some t ∧ category t = cat).
Proof.
  intros o m.
  assert (Hmap : tools o = list_to_map m).
  { apply registerAll_list_to_map. simpl. done. }
  destruct (registerAll_keyed ts []) as [Hkey Hnd]; [constructor | constructor |].
  fold m in Hkey, Hnd.
  assert (Hnames : name <$> getAvailableTools m = m.*1).
  { unfold getAvailableTools. rewrite <- list_fmap_compose.
    apply list_fmap_ext. intros i [k t] Hi. simpl.
    symmetry. exact (proj1 (Forall_forall _ _) Hkey (k, t) (list_elem_of_lookup_2 _ _ _ Hi)). }
  assert (Hmem : ∀ t, t ∈ getAvailableTools m ↔ lookupTool o (name t) = Some t).
  { intros t. unfold lookupTool. rewrite Hmap.
    rewrite <- (elem_of_list_to_map m (name t) t Hnd).
    unfold getAvailableTools. rewrite list_elem_of_fmap. split.
    - intros ([k t'] & -> & Hin). simpl.
      pose proof (proj1 (Forall_forall _ _) Hkey _ Hin) as Hk. simpl in Hk.
      by rewrite <- Hk.
    - intros Hin. by exists (name t, t). }
  split_and!.
  - intros n. unfold lookupTool. rewrite Hmap. apply Map_get_list_to_map.
  - by rewrite Hnames.
  - exact Hmem.
  - unfold getAvailableTools. rewrite length_fmap, Hmap.
    by rewrite map_size_list_to_map.
  - intros cat t. unfold getToolsByCategory.
    rewrite list_elem_of_filter, Hmem. tauto.
Qed.

(** X8.  Registering never reorders the listing: a tool registered under
    a name that is already present takes the place of the old one, a tool
    with a new name goes to the end, every entry under another name stays
    where it is, and so the names listed before any further registrations
    remain a prefix of the names listed after them. *)
Theorem registration_keeps_listing_order (m : ToolMap) (t : Tool) (ts : list Tool) :
  ((Map_set m (name t) t).*1 =
     if bool_decide (name t ∈ m.*1) then m.*1 else m.*1 ++ [name t]) ∧
  Map_get (Map_set m (name t) t) (name t) = Some t ∧
  (∀ i e, m !! i = Some e → e.1 ≠ name t → Map_set m (name t) t !! i = Some e) ∧
  m.*1 `prefix_of` (registerAll m ts).*1.
Proof.
  split_and!.
  - apply Map_set_keys.
  - rewrite Map_get_list_to_map, list_to_map_Map_set. apply lookup_insert_eq.
  - intros i e. apply Map_set_other.
  - apply registerAll_prefix.
Qed.

Lemma registration_keeps_listing_order_witness :
  let m := registerAll [] builtinTools in
  m !! 1%nat = Some ("github-integration", GitHubIntegrationTool) ∧
  ("github-integration" ≠ name customAnalysisTool) ∧
  Map_set m (name customAnalysisTool) customAnalysisTool !! 1%nat
    = Some ("github-integration", GitHubIntegrationTool) ∧
  Map_set m (name customAnalysisTool) customAnalysisTool !! 0%nat
    = Some ("code-analysis", customAnalysisTool).
Proof.
  intros m.
  assert (Hi : m !! 1%nat = Some ("github-integration", GitHubIntegrationTool))
    by reflexivity.
  assert (Hne : "github-integration" ≠ name customAnalysisTool) by (simpl; discriminate).
  split; [exact Hi |]. split; [exact Hne |]. split; [| reflexivity].
  exact (proj1 (proj2 (proj2 (registration_keeps_listing_order m customAnalysisTool [])))
           1%nat ("github-integration", GitHubIntegrationTool) Hi Hne).
Defined.

Lemma listing_matches_registry_witness :
  let o := foldl registerTool (newToolOrchestrator (defaultConfig 5))
             overridingRegistrations in
  customAnalysisTool ∈ getAvailableTools (registerAll [] overridingRegistrations) ∧
  lookupTool o (name customAnalysisTool) = Some customAnalysisTool.
Proof.
  intros o.
  assert (Hin : customAnalysisTool
                  ∈ getAvailableTools (registerAll [] overridingRegistrations)).
  { change (customAnalysisTool ∈ customAnalysisTool :: tail builtinTools). left. }
  split; [exact Hin |].
  exact (proj1 (proj1 (proj2 (proj2 (listing_matches_registry (defaultConfig 5)
                                        overridingRegistrations)))
                  customAnalysisTool) Hin).
Defined.

(** ** From the call to the result *)

Lemma run_callAndSettle (rt : Runtime) (toolName : string) (t : Tool)
    (params : ToolParameters) (ctx : AgentContext) (prio : option Z)
    (eid : string) (w : Oracle) (now : Z) (win : RaceWinner) (now' : Z)
    (eid' eid'' : string) :
  lookupTool (orch rt) toolName = Some t →
  atCapacity rt = false →
  validate t params w = Fulfilled true →
  let task := {| task_executionId := eid; task_toolName := toolName;
                 task_tool := t; task_parameters := params;
                 task_context := ctx; task_origin := ByCaller;
                 task_phase := Racing now |} in
  ∃ ls0,
    snd (run rt (callAndSettle rt toolName params ctx prio eid w now win now' eid' eid''))
      = ExecuteCalled task :: ls0 ++
          [Completed ByCaller toolName ctx
             (Returned (raceOutcome (config (orch rt)) task win (now' - now)))] ∧
    Forall fromDrain ls0.
Proof.
  intros Hl Hcap Hv task. unfold callAndSettle.
  set (i := length (tasks rt)).
  set (rt1 := startExecution rt ByCaller t toolName params ctx eid).
  assert (H1 : step rt (CallExecuteTool toolName params ctx prio eid) = (rt1, [])).
  { simpl. unfold executeTool. by rewrite Hl, Hcap. }
  assert (Hi1 : tasks rt1 !! i = Some (setPhase task Validating)).
  { subst rt1 i. simpl. by apply list_lookup_middle. }
  set (rt2 := setTasks (<[i := task]> (tasks rt1)) rt1).
  assert (H2 : step rt1 (ValidateSettles i w now eid') = (rt2, [ExecuteCalled task])).
  { simpl. unfold afterValidate. rewrite Hi1. simpl. by rewrite Hv. }
  assert (Hi2 : tasks rt2 !! i = Some task).
  { subst rt2. simpl. apply list_lookup_insert_eq. by eapply lookup_lt_Some. }
  pose proof (afterRace_finish rt2 i task now win now' eid'' Hi2 eq_refl) as H3.
  destruct (finish_delivers rt2 i task
              (raceOutcome (config (orch rt2)) task win (now' - now)) eid'')
    as (ls0 & Hls & Hall).
  exists ls0. split; [| done].
  cbn [run]. rewrite H1, H2. rewrite H3.
  destruct (finish rt2 i task _ eid'') as [rt3 ls3]. simpl in Hls. simpl.
  rewrite app_nil_r. by rewrite Hls.
Qed.

(** X9.  A call for a registered tool that finds a free slot, whose
    validation accepts the parameters and whose race then settles, calls
    [execute] once, with the parameters of the call, and hands the caller
    one result: that of the tool with the measured time when [execute]
    returns first and its object takes the assignment, and a failure
    result when the object refuses the assignment, when [execute] throws
    or when the timeout wins. *)
Theorem accepted_call_returns_tool_result (rt : Runtime) (toolName : string)
    (t : Tool) (params : ToolParameters) (ctx : AgentContext) (prio : option Z)
    (eid : string) (w : Oracle) (now : Z) (win : RaceWinner) (now' : Z)
    (eid' eid'' : string) :
  lookupTool (orch rt) toolName = Some t →
  atCapacity rt = false →
  validate t params w = Fulfilled true →
  ∃ task ls0 r,
    snd (run rt (callAndSettle rt toolName params ctx prio eid w now win now' eid' eid''))
      = ExecuteCalled task :: ls0 ++ [Completed ByCaller toolName ctx (Returned r)] ∧
    Forall fromDrain ls0 ∧
    task_parameters task = params ∧ task_tool task = t ∧
    task_executionId task = eid ∧
    (∀ w' r0, win = ExecuteSettled w' → execute t params w' = Fulfilled r0 →
              readOnly r0 = None →
              r = withExecutionTime r0 (now' - now)) ∧
    (∀ w' r0 e, win = ExecuteSettled w' → execute t params w' = Fulfilled r0 →
                readOnly r0 = Some e →
                r = failureResult e) ∧
    (∀ w' e, win = ExecuteSettled w' → execute t params w' = RejectedWith e →
             r = failureResult e) ∧
    (win = TimerFired →
       r = failureResult (timeoutError (timeoutMs (config (orch rt))))).
Proof.
  intros Hl Hcap Hv.
  destruct (run_callAndSettle rt toolName t params ctx prio eid w now win now'
              eid' eid'' Hl Hcap Hv) as (ls0 & Hrun & Hall).
  eexists _, ls0, _. split; [exact Hrun |]. split; [exact Hall |].
  split_and!; try done.
  - intros w' r0 -> Hr Hro. unfold raceOutcome, race, assignExecutionTime. simpl.
    by rewrite Hr, Hro.
  - intros w' r0 e -> Hr Hro. unfold raceOutcome, race, assignExecutionTime. simpl.
    by rewrite Hr, Hro.
  - intros w' e -> Hr. unfold raceOutcome, race. simpl. by rewrite Hr.
  - by intros ->.
Qed.

Lemma accepted_call_returns_tool_result_witness :
  lookupTool (orch idleRuntime) "probe" = Some (probeTool "probe") ∧
  atCapacity idleRuntime = false ∧
  validate (probeTool "probe") goodParams 0 = Fulfilled true ∧
  ∃ task ls0 r,
    snd (run idleRuntime
           (callAndSettle idleRuntime "probe" goodParams
              (sampleContext "A") None "exec_1" 0 100 TimerFired 150
              "exec_2" "exec_3"))
      = ExecuteCalled task :: ls0 ++
          [Completed ByCaller "probe" (sampleContext "A") (Returned r)] ∧
    r = failureResult (timeoutError 50).
Proof.
  assert (Hl : lookupTool (orch idleRuntime) "probe" = Some (probeTool "probe"))
    by (vm_compute; reflexivity).
  assert (Hcap : atCapacity idleRuntime = false) by (vm_compute; reflexivity).
  assert (Hv : validate (probeTool "probe") goodParams 0 = Fulfilled true)
    by (vm_compute; reflexivity).
  split; [exact Hl |]. split; [exact Hcap |]. split; [exact Hv |].
  destruct (accepted_call_returns_tool_result idleRuntime "probe"
              (probeTool "probe") goodParams (sampleContext "A") None "exec_1" 0 100
              TimerFired 150 "exec_2" "exec_3" Hl Hcap Hv)
    as (task & ls0 & r & Hrun & _ & _ & _ & _ & _ & _ & _ & Ht).
  exists task, ls0, r. split; [exact Hrun | exact (Ht eq_refl)].
Defined.

(** The results of the built-in tools are object literals. *)
Lemma builtin_results_writable (t : Tool) (params : ToolParameters)
    (w : Oracle) (r : ToolResult) :
  t ∈ builtinTools → execute t params w = Fulfilled r → readOnly r = None.
Proof.
  intros Hin Hr. unfold builtinTools in Hin.
  repeat (apply elem_of_cons in Hin as [-> | Hin]);
    [.. | by apply elem_of_nil in Hin]; simpl in Hr.
  - destruct (getProperty params "code"); try done.
    destruct (randomBelow 10 w) as [? w1], (randomBelow 100 w1) as [? w2],
      (randomBelow 5 w2). by injection Hr as <-.
  - by injection Hr as <-.
  - destruct (getProperty params "source"); try done. by injection Hr as <-.
  - revert Hr. repeat (destruct (randomBelow _ _)). by intros [= <-].
  - revert Hr. repeat (destruct (randomBelow _ _)). by intros [= <-].
  - revert Hr. repeat (destruct (randomBelow _ _)). by intros [= <-].
Qed.

(** X10.  On an orchestrator where a built-in tool is registered under
    its name, as after [initialize], a call that finds a free slot with
    parameters that the validator accepts, and whose [execute] settles
    before the timeout, hands the caller a result with [success = true],
    no [errors] and the measured time as [executionTime]. *)
Theorem builtin_tool_call_succeeds (rt : Runtime) (t : Tool)
    (params : ToolParameters) (ctx : AgentContext) (prio : option Z)
    (eid : string) (w w' : Oracle) (now now' : Z) (eid' eid'' : string) :
  t ∈ builtinTools →
  lookupTool (orch rt) (name t) = Some t →
  atCapacity rt = false →
  validate t params w = Fulfilled true →
  ∃ task ls0 r,
    snd (run rt (callAndSettle rt (name t) params ctx prio eid w now
                   (ExecuteSettled w') now' eid' eid''))
      = ExecuteCalled task :: ls0 ++ [Completed ByCaller (name t) ctx (Returned r)] ∧
    Forall fromDrain ls0 ∧
    success r = true ∧ executionTime r = now' - now ∧ errors r = None ∧
    is_Some (data r).
Proof.
  intros Hin Hl Hcap Hv.
  destruct (run_callAndSettle rt (name t) t params ctx prio eid w now
              (ExecuteSettled w') now' eid' eid'' Hl Hcap Hv) as (ls0 & Hrun & Hall).
  destruct (validated_builtin_execute_ok t params w w' Hin Hv)
    as (r0 & Hr0 & Hs & _ & He & Hd).
  eexists _, ls0, _. split; [exact Hrun |]. split; [exact Hall |].
  unfold raceOutcome, race, assignExecutionTime. simpl. rewrite Hr0.
  by rewrite (builtin_results_writable t params w' r0 Hin Hr0).
Qed.

Lemma builtin_tool_call_succeeds_witness :
  CodeAnalysisTool ∈ builtinTools ∧
  lookupTool (orch initializedRuntime) (name CodeAnalysisTool) = Some CodeAnalysisTool ∧
  atCapacity initializedRuntime = false ∧
  validate CodeAnalysisTool (reviewParams "let x = 1;") 0 = Fulfilled true ∧
  ∃ task ls0 r,
    snd (run initializedRuntime
           (callAndSettle initializedRuntime (name CodeAnalysisTool)
              (reviewParams "let x = 1;") (sampleContext "A") None "exec_1" 0 100
              (ExecuteSettled 7) 130 "exec_2" "exec_3"))
      = ExecuteCalled task :: ls0 ++
          [Completed ByCaller (name CodeAnalysisTool) (sampleContext "A") (Returned r)] ∧
    success r = true ∧ executionTime r = 130 - 100.
Proof.
  assert (Hin : CodeAnalysisTool ∈ builtinTools) by (unfold builtinTools; left).
  assert (Hl : lookupTool (orch initializedRuntime) (name CodeAnalysisTool)
               = Some CodeAnalysisTool)
    by (apply (initialize_lookup_builtin _ CodeAnalysisTool Hin)).
  assert (Hcap : atCapacity initializedRuntime = false).
  { unfold atCapacity. apply bool_decide_eq_false.
    change (¬ 5 ≤ Z.of_nat (size (∅ : gset string))). rewrite size_empty. lia. }
  assert (Hv : validate CodeAnalysisTool (reviewParams "let x = 1;") 0 = Fulfilled true)
    by (vm_compute; reflexivity).
  split; [exact Hin |]. split; [exact Hl |]. split; [exact Hcap |].
  split; [exact Hv |].
  destruct (builtin_tool_call_succeeds initializedRuntime CodeAnalysisTool
              (reviewParams "let x = 1;") (sampleContext "A") None "exec_1" 0 7 100 130
              "exec_2" "exec_3" Hin Hl Hcap Hv)
    as (task & ls0 & r & Hrun & _ & Hs & Ht & _).
  exists task, ls0, r. split; [exact Hrun |]. split; [exact Hs | exact Ht].
Defined.

(** ** What steps never do *)

Lemma timersRegistered_reachable c rt : reachable c rt → timersRegistered rt.
Proof.
  apply (reachable_preserves timersRegistered); unfold timersRegistered.
  - intros rt0 t Ht. simpl. eapply Forall_impl; [exact Ht |].
    simpl. intros r [t0 Hr].
    destruct (decide (name t = retry_toolName r)) as [Heq | Hne].
    + rewrite Heq, lookup_insert_eq. eauto.
    + rewrite lookup_insert_ne by done. eauto.
  - intros rt0 t toolName params ctx prio Ht Hl _. simpl.
    apply Forall_app. split; [done |]. constructor; [| done]. simpl.
    unfold lookupTool in Hl. by rewrite Hl.
  - by intros rt0 o t toolName params ctx eid Ht _ _.
  - by intros rt0 i t Ht _.
  - by intros rt0 e rest Ht _.
  - intros rt0 k Ht. simpl. by apply Forall_delete.
  - by intros rt0 i t ph Ht _.
  - constructor.
Qed.

Lemma executeTool_label rt o toolName params ctx prio eid l :
  l ∈ snd (executeTool rt o toolName params ctx prio eid) →
  lookupTool (orch rt) toolName = None ∧
  l = Completed o toolName ctx
        (Thrown (ThrownError ("Tool not found: " +:+ toolName))).
Proof.
  unfold executeTool. destruct (lookupTool (orch rt) toolName) as [t|].
  - destruct (atCapacity rt); simpl; by intros ?%elem_of_nil.
  - simpl. by intros ->%list_elem_of_singleton.
Qed.

Lemma finish_labels_registered rt i t c eid :
  registered rt →
  snd (finish rt i t c eid) =
    [Completed (task_origin t) (task_toolName t) (task_context t) c].
Proof.
  intros [_ Hq]. unfold finish, processQueue.
  destruct (queue (release rt i t)) as [|e rest] eqn:Heq; [done |].
  case_bool_decide; [| done].
  simpl in Heq. rewrite Heq in Hq. apply Forall_inv in Hq as [t' Ht'].
  unfold executeTool, lookupTool. simpl. rewrite Ht'.
  by destruct (atCapacity _).
Qed.

(** X11.  In every reachable state the only exception that [executeTool]
    raises is "Tool not found", and only for a direct call that names a
    tool which is not registered: the calls made by the retry timers and
    by [processQueue] never throw, because the tools of queued requests
    and of pending retries stay registered. *)
Theorem only_direct_calls_throw (c : ToolsConfig) (rt : Runtime) (ev : Event)
    (o : Origin) (toolName : string) (ctx : AgentContext) (e : JsThrown) :
  reachable c rt →
  Completed o toolName ctx (Thrown e) ∈ snd (step rt ev) →
  o = ByCaller ∧
  lookupTool (orch rt) toolName = None ∧
  e = ThrownError ("Tool not found: " +:+ toolName) ∧
  ∃ params prio eid, ev = CallExecuteTool toolName params ctx prio eid.
Proof.
  intros Hreach Hin.
  pose proof (registered_reachable c rt Hreach) as Hreg.
  pose proof (timersRegistered_reachable c rt Hreach) as Htim.
  destruct ev as [t|n params ctx' prio eid|k eid|i w now eid|i win now eid];
    simpl in Hin.
  - by apply elem_of_nil in Hin.
  - apply executeTool_label in Hin as [Hnone Heq].
    injection Heq as -> -> -> ->. split_and!; eauto.
  - unfold afterRetryTimer in Hin.
    destruct (timers rt !! k) as [r|] eqn:Hk; [| by apply elem_of_nil in Hin].
    apply executeTool_label in Hin as [Hnone _]. exfalso.
    pose proof (proj1 (Forall_forall _ _) Htim r (list_elem_of_lookup_2 _ _ _ Hk))
      as [t Ht].
    unfold lookupTool in Hnone. simpl in Hnone. congruence.
  - unfold afterValidate in Hin.
    destruct (tasks rt !! i) as [t|]; [| by apply elem_of_nil in Hin].
    destruct (task_phase t); [| by apply elem_of_nil in Hin].
    destruct (validate _ _ _) as [[]|e0].
    + by apply list_elem_of_singleton in Hin.
    + rewrite finish_labels_registered in Hin by done.
      by apply list_elem_of_singleton in Hin.
    + rewrite finish_labels_registered in Hin by done.
      by apply list_elem_of_singleton in Hin.
  - unfold afterRace in Hin.
    destruct (tasks rt !! i) as [t|]; [| by apply elem_of_nil in Hin].
    destruct (task_phase t); [by apply elem_of_nil in Hin |].
    rewrite finish_labels_registered in Hin by done.
    by apply list_elem_of_singleton in Hin.
Qed.

Lemma only_direct_calls_throw_witness :
  reachable (sampleConfig 1) waitingRuntime ∧
  Completed ByCaller "linter" (sampleContext "D")
    (Thrown (ThrownError "Tool not found: linter"))
    ∈ snd (step waitingRuntime
             (CallExecuteTool "linter" goodParams (sampleContext "D") None "exec_4")) ∧
  lookupTool (orch waitingRuntime) "linter" = None.
Proof.
  assert (Hr : reachable (sampleConfig 1) waitingRuntime)
    by apply run_reachable.
  assert (Hin : Completed ByCaller "linter" (sampleContext "D")
                  (Thrown (ThrownError "Tool not found: linter"))
                ∈ snd (step waitingRuntime
                         (CallExecuteTool "linter" goodParams (sampleContext "D")
                            None "exec_4"))).
  { assert (Hl : lookupTool (orch waitingRuntime) "linter" = None)
      by (vm_compute; reflexivity).
    simpl. unfold executeTool. rewrite Hl. left. }
  split; [exact Hr |]. split; [exact Hin |].
  exact (proj1 (proj2 (only_direct_calls_throw (sampleConfig 1) waitingRuntime _ _ _ _ _
                         Hr Hin))).
Defined.

Lemma not_execute_label ls task :
  filter isExecuteCalled ls = [] → ExecuteCalled task ∉ ls.
Proof.
  intros Hf Hin.
  assert (Hin' : ExecuteCalled task ∈ filter isExecuteCalled ls)
    by (by apply list_elem_of_filter).
  rewrite Hf in Hin'. by apply elem_of_nil in Hin'.
Qed.

(** X12.  [execute] is called in one place only: when the validation of a
    suspended activation has just been fulfilled with [true], for the tool
    and the parameters of that activation.  No call, retry, race or
    registration calls [execute], and parameters that the validator did
    not accept never reach it. *)
Theorem execute_only_after_validation (rt : Runtime) (ev : Event) (task : Task) :
  ExecuteCalled task ∈ snd (step rt ev) →
  ∃ i w now eid t0,
    ev = ValidateSettles i w now eid ∧
    tasks rt !! i = Some t0 ∧
    task_phase t0 = Validating ∧
    task = setPhase t0 (Racing now) ∧
    validate (task_tool task) (task_parameters task) w = Fulfilled true ∧
    snd (step rt ev) = [ExecuteCalled task].
Proof.
  intros Hin.
  destruct ev as [t|n params ctx' prio eid|k eid|i w now eid|i win now eid];
    simpl in Hin.
  - by apply elem_of_nil in Hin.
  - by apply not_execute_label in Hin;
      [| apply no_label_is_execute_after_executeTool].
  - unfold afterRetryTimer in Hin.
    destruct (timers rt !! k) as [r|]; [| by apply elem_of_nil in Hin].
    by apply not_execute_label in Hin;
      [| apply no_label_is_execute_after_executeTool].
  - simpl. unfold afterValidate in *.
    destruct (tasks rt !! i) as [t0|] eqn:Hi; [| by apply elem_of_nil in Hin].
    destruct (task_phase t0) eqn:Hph; [| by apply elem_of_nil in Hin].
    destruct (validate _ _ _) as [[]|e0] eqn:Hv.
    + apply list_elem_of_singleton in Hin. injection Hin as ->.
      exists i, w, now, eid, t0. by split_and!.
    + by apply not_execute_label in Hin;
        [| apply no_label_is_execute_after_finish].
    + by apply not_execute_label in Hin;
        [| apply no_label_is_execute_after_finish].
  - unfold afterRace in Hin.
    destruct (tasks rt !! i) as [t0|]; [| by apply elem_of_nil in Hin].
    destruct (task_phase t0); [by apply elem_of_nil in Hin |].
    by apply not_execute_label in Hin;
      [| apply no_label_is_execute_after_finish].
Qed.

Lemma execute_only_after_validation_witness :
  ExecuteCalled racingTaskA ∈ snd (step busyRuntime (ValidateSettles 0 0 100 "exec_2")) ∧
  ∃ w, validate (task_tool racingTaskA) (task_parameters racingTaskA) w = Fulfilled true.
Proof.
  assert (Hin : ExecuteCalled racingTaskA
                ∈ snd (step busyRuntime (ValidateSettles 0 0 100 "exec_2"))).
  { assert (Hs : snd (step busyRuntime (ValidateSettles 0 0 100 "exec_2"))
                 = [ExecuteCalled racingTaskA]) by (vm_compute; reflexivity).
    rewrite Hs. left. }
  split; [exact Hin |].
  destruct (execute_only_after_validation busyRuntime _ racingTaskA Hin)
    as (i & w & now & eid & t0 & _ & _ & _ & _ & Hv & _).
  exists w. exact Hv.
Defined.

(** ** The retry timer *)

(** X13.  What the retry timer of a backlogged request does when it
    fires, its tool being registered.  While no slot is free, the request
    is pushed onto the queue once more and a new timer takes the place of
    the old one: the queue grows by one entry at every expiry and nothing
    starts.  When a slot is free, the request is started; the queue is
    not touched, so the entry that the request left there stays. *)
Theorem retry_timer_polls (rt : Runtime) (k : nat) (r : Retry) (t : Tool)
    (eid : string) :
  timers rt !! k = Some r →
  lookupTool (orch rt) (retry_toolName r) = Some t →
  let rt' := fst (step rt (RetryTimerFires k eid)) in
  snd (step rt (RetryTimerFires k eid)) = [] ∧
  (atCapacity rt = true →
     length (executionQueue (orch rt')) = S (length (executionQueue (orch rt))) ∧
     executionQueue (orch rt') ≡ₚ
       {| tool := t; parameters := retry_parameters r;
          context := retry_context r; priority := retry_priority r |}
       :: executionQueue (orch rt) ∧
     timers rt' = delete k (timers rt) ++ [r] ∧
     length (timers rt') = length (timers rt) ∧
     tasks rt' = tasks rt ∧
     runningExecutions (orch rt') = runningExecutions (orch rt)) ∧
  (atCapacity rt = false →
     executionQueue (orch rt') = executionQueue (orch rt) ∧
     timers rt' = delete k (timers rt) ∧
     runningExecutions (orch rt') = {[eid]} ∪ runningExecutions (orch rt) ∧
     ∃ task, tasks rt' = tasks rt ++ [task] ∧
             task_origin task = ByRetry ∧ task_phase task = Validating ∧
             task_parameters task = retry_parameters r ∧
             task_context task = retry_context r ∧ task_tool task = t).
Proof.
  intros Hk Hl rt'. subst rt'. simpl. unfold afterRetryTimer. rewrite Hk.
  unfold executeTool.
  change (lookupTool (orch (setTimers (delete k (timers rt)) rt)) (retry_toolName r))
    with (lookupTool (orch rt) (retry_toolName r)).
  rewrite Hl.
  change (atCapacity (setTimers (delete k (timers rt)) rt)) with (atCapacity rt).
  destruct (atCapacity rt) eqn:Hcap; simpl.
  - split; [done |]. split; [| done]. intros _.
    split_and!; try done.
    + apply enqueue_length.
    + apply enqueue_Permutation.
    + by destruct r.
    + rewrite length_app, length_delete by (by eexists). simpl.
      apply lookup_lt_Some in Hk. lia.
  - split; [done |]. split; [done |]. intros _.
    split_and!; try done. by eexists.
Qed.

Lemma retry_timer_polls_witness :
  let r := {| retry_toolName := "probe"; retry_parameters := goodParams;
              retry_context := sampleContext "B"; retry_priority := 1 |} in
  timers waitingRuntime !! 0%nat = Some r ∧
  lookupTool (orch waitingRuntime) "probe" = Some (probeTool "probe") ∧
  atCapacity waitingRuntime = true ∧
  length (executionQueue (orch (fst (step waitingRuntime (RetryTimerFires 0 "exec_4")))))
    = S (length (executionQueue (orch waitingRuntime))).
Proof.
  intros r.
  assert (Hk : timers waitingRuntime !! 0%nat = Some r) by (vm_compute; reflexivity).
  assert (Hl : lookupTool (orch waitingRuntime) (retry_toolName r)
               = Some (probeTool "probe")) by (vm_compute; reflexivity).
  assert (Hcap : atCapacity waitingRuntime = true) by (vm_compute; reflexivity).
  split; [exact Hk |]. split; [exact Hl |]. split; [exact Hcap |].
  exact (proj1 (proj1 (proj2 (retry_timer_polls waitingRuntime 0 r (probeTool "probe")
                                "exec_4" Hk Hl)) Hcap)).
Defined.

(** ** The registry over time *)

Lemma executeTool_tools rt o toolName params ctx prio eid :
  tools (orch (fst (executeTool rt o toolName params ctx prio eid))) = tools (orch rt) ∧
  config (orch (fst (executeTool rt o toolName params ctx prio eid))) = config (orch rt).
Proof.
  unfold executeTool. destruct (lookupTool _ _); [| done].
  by destruct (atCapacity rt).
Qed.

Lemma finish_tools rt i t c eid :
  tools (orch (fst (finish rt i t c eid))) = tools (orch rt) ∧
  config (orch (fst (finish rt i t c eid))) = config (orch rt).
Proof.
  rewrite finish_state. unfold processQueue.
  destruct (queue (release rt i t)) as [|e rest]; [done |].
  case_bool_decide; [| done].
  apply (executeTool_tools (setQueue rest (release rt i t))).
Qed.

Lemma step_tools rt ev :
  (∀ t, ev ≠ CallRegisterTool t) →
  tools (orch (fst (step rt ev))) = tools (orch rt).
Proof.
  intros Hev.
  destruct ev as [t|n params ctx' prio eid|k eid|i w now eid|i win now eid]; simpl.
  - by destruct (Hev t).
  - apply executeTool_tools.
  - unfold afterRetryTimer. destruct (timers rt !! k); [| done].
    apply (executeTool_tools (setTimers _ rt)).
  - unfold afterValidate. destruct (tasks rt !! i) as [t|]; [| done].
    destruct (task_phase t); [| done].
    destruct (validate _ _ _) as [[]|e0]; [done | apply finish_tools ..].
  - unfold afterRace. destruct (tasks rt !! i) as [t|]; [| done].
    destruct (task_phase t); [done | apply finish_tools].
Qed.

Lemma step_keeps_registered rt ev n :
  is_Some (lookupTool (orch rt) n) → is_Some (lookupTool (orch (fst (step rt ev))) n).
Proof.
  intros Hn. destruct ev as [t| | | |];
    [| unfold lookupTool; rewrite step_tools; done ..].
  simpl. unfold lookupTool. simpl.
  destruct (decide (name t = n)) as [<- | Hne].
  - rewrite lookup_insert_eq. eauto.
  - by rewrite lookup_insert_ne.
Qed.

(** X14.  Only [registerTool] changes the registry: a call of
    [executeTool], a retry, and the settlement of a validation or of a
    race leave it as it is.  Nothing removes a registration, so a name
    that resolves to a tool keeps resolving to one, whatever happens
    afterwards. *)
Theorem registry_changes_only_by_registerTool (rt : Runtime) :
  (∀ ev, (∀ t, ev ≠ CallRegisterTool t) →
         tools (orch (fst (step rt ev))) = tools (orch rt)) ∧
  (∀ evs n, is_Some (lookupTool (orch rt) n) →
            is_Some (lookupTool (orch (fst (run rt evs))) n)) ∧
  (∀ evs, Forall (λ ev, ∀ t, ev ≠ CallRegisterTool t) evs →
          tools (orch (fst (run rt evs))) = tools (orch rt)).
Proof.
  split; [intros ev; apply step_tools |]. split.
  - intros evs. revert rt. induction evs as [|ev evs IH]; intros rt n Hn; [done |].
    simpl. pose proof (step_keeps_registered rt ev n Hn) as H1.
    destruct (step rt ev) as [rt1 ls1]. simpl in H1.
    specialize (IH rt1 n H1). by destruct (run rt1 evs).
  - intros evs. revert rt. induction evs as [|ev evs IH]; intros rt Hall; [done |].
    apply Forall_cons in Hall as [Hev Hall]. simpl.
    pose proof (step_tools rt ev Hev) as H1.
    destruct (step rt ev) as [rt1 ls1]. simpl in H1.
    specialize (IH rt1 Hall). destruct (run rt1 evs). simpl in *. congruence.
Qed.

Lemma registry_changes_only_by_registerTool_witness :
  is_Some (lookupTool (orch busyRuntime) "probe") ∧
  is_Some (lookupTool (orch (fst (run busyRuntime
             [ callProbe "B" goodParams (Some 1) "exec_2";
               ValidateSettles 0 0 100 "exec_3";
               RaceSettles 0 TimerFired 150 "exec_4" ]))) "probe").
Proof.
  assert (Hn : is_Some (lookupTool (orch busyRuntime) "probe")).
  { exists (probeTool "probe"). vm_compute. reflexivity. }
  split; [exact Hn |].
  exact (proj1 (proj2 (registry_changes_only_by_registerTool busyRuntime)) _ "probe" Hn).
Defined.

(** ** Without slots *)

(** X15.  When the configured maximum is zero or negative, nothing ever
    runs: in every reachable state no activation is suspended and the
    running set is empty, no step calls [execute], and every call for a
    registered tool, and every retry of one, ends in the queue. *)
Theorem no_slots_no_execution (c : ToolsConfig) (rt : Runtime) :
  maxConcurrent c ≤ 0 →
  reachable c rt →
  tasks rt = [] ∧
  runningExecutions (orch rt) = ∅ ∧
  atCapacity rt = true ∧
  (∀ ev, filter isExecuteCalled (snd (step rt ev)) = []) ∧
  (∀ toolName t params ctx prio eid,
     lookupTool (orch rt) toolName = Some t →
     step rt (CallExecuteTool toolName params ctx prio eid) =
       (backlog rt t toolName params ctx (default 5 prio), [])).
Proof.
  intros Hc Hreach.
  pose proof (reachable_config c rt Hreach) as Hcfg.
  assert (Hinv : tasks rt = [] ∧ runningExecutions (orch rt) = ∅).
  { revert Hreach.
    apply (reachable_preserves
             (λ rt, config (orch rt) = c ∧ tasks rt = [] ∧ runningExecutions (orch rt) = ∅)
          ); clear rt Hcfg.
    - by intros rt t (? & ? & ?).
    - by intros rt t toolName params ctx prio (? & ? & ?) _ _.
    - intros rt o t toolName params ctx eid (Hcfg & _ & Hrun) _ Hcap. exfalso.
      unfold atCapacity in Hcap. apply bool_decide_eq_false in Hcap.
      rewrite Hrun, size_empty, Hcfg in Hcap. lia.
    - intros rt i t (_ & Ht & _) Hi. by rewrite Ht in Hi.
    - by intros rt e rest (? & ? & ?) _.
    - by intros rt k (? & ? & ?).
    - intros rt i t ph (_ & Ht & _) Hi. by rewrite Ht in Hi.
    - done. }
  destruct Hinv as [Ht Hrun].
  assert (Hcap : atCapacity rt = true).
  { unfold atCapacity. apply bool_decide_eq_true.
    rewrite Hrun, size_empty, Hcfg. lia. }
  split_and!; try done.
  - intros ev.
    destruct ev as [t|n params ctx' prio eid|k eid|i w now eid|i win now eid]; simpl.
    + done.
    + apply no_label_is_execute_after_executeTool.
    + unfold afterRetryTimer. destruct (timers rt !! k); [| done].
      apply no_label_is_execute_after_executeTool.
    + unfold afterValidate. by rewrite Ht.
    + unfold afterRace. by rewrite Ht.
  - intros toolName t params ctx prio eid Hl. simpl. unfold executeTool.
    by rewrite Hl, Hcap.
Qed.

Lemma no_slots_no_execution_witness :
  maxConcurrent (sampleConfig 0) ≤ 0 ∧
  reachable (sampleConfig 0) (fst (run (newRuntime (sampleConfig 0)) starvedTrace)) ∧
  tasks (fst (run (newRuntime (sampleConfig 0)) starvedTrace)) = [].
Proof.
  assert (Hc : maxConcurrent (sampleConfig 0) ≤ 0) by (simpl; lia).
  split; [exact Hc |]. split; [apply run_reachable |].
  exact (proj1 (no_slots_no_execution (sampleConfig 0) _ Hc
                  (run_reachable (sampleConfig 0) starvedTrace))).
Defined.

(** ** A freed slot *)

Lemma run_fresh_used used rt evs :
  coherent used rt → saturated rt → NoDup (omap eventId evs) →
  (∀ id, id ∈ omap eventId evs → id ∉ used) →
  ∃ used', coherent used' (fst (run rt evs)) ∧ saturated (fst (run rt evs)) ∧
           ∀ id, id ∈ used' → id ∈ used ∨ id ∈ omap eventId evs.
Proof.
  revert used rt. induction evs as [|ev evs IH]; intros used rt Hc Hs Hnd Hf.
  { exists used. split_and!; auto. }
  simpl. destruct (step_fresh used rt ev Hc Hs) as [Hc1 Hs1].
  { intros eid Heid. apply Hf. simpl. rewrite Heid. left. }
  destruct (step rt ev) as [rt1 ls1]. simpl in *.
  destruct (IH (usedAfter used ev) rt1 Hc1 Hs1) as (used' & Hc2 & Hs2 & Hsub).
  { destruct (eventId ev); [by apply NoDup_cons in Hnd as [_ ?] | done]. }
  { intros id Hid. unfold usedAfter.
    destruct (eventId ev) as [eid|] eqn:Heid.
    - apply NoDup_cons in Hnd as [Hnot _]. intros [-> | Hin]%elem_of_cons.
      + done.
      + revert Hin. apply Hf. by right.
    - by apply Hf. }
  exists used'. destruct (run rt1 evs) as [rt2 ls2]. simpl in *.
  split_and!; [done | done |].
  intros id Hid. destruct (Hsub id Hid) as [Hu | Hin].
  - unfold usedAfter in Hu. destruct (eventId ev) as [eid|].
    + apply elem_of_cons in Hu as [-> | Hu]; [right; left | by left].
    + by left.
  - right. destruct (eventId ev); [by right | done].
Qed.

(** X16.  A freed slot is taken again at once when requests wait.  In a
    run in which every activation has an identifier of its own and the
    maximum is not negative, the end of an activation while the queue is
    not empty promotes the head of the queue in the same step: the queue
    loses its head, the running set is as large as before, and as many
    activations are suspended as before, the last of them for the
    promoted entry. *)
Theorem freed_slot_is_reused (c : ToolsConfig) (evs : list Event) (i : nat)
    (t : Task) (r : Completion) (eid : string) (e : ToolExecution)
    (rest : list ToolExecution) :
  0 ≤ maxConcurrent c →
  freshIds evs →
  eid ∉ omap eventId evs →
  tasks (fst (run (newRuntime c) evs)) !! i = Some t →
  executionQueue (orch (fst (run (newRuntime c) evs))) = e :: rest →
  let rt := fst (run (newRuntime c) evs) in
  let rt' := fst (finish rt i t r eid) in
  executionQueue (orch rt') = rest ∧
  size (runningExecutions (orch rt')) = size (runningExecutions (orch rt)) ∧
  Z.of_nat (size (runningExecutions (orch rt'))) = maxConcurrent c ∧
  length (tasks rt') = length (tasks rt) ∧
  ∃ t', last (tasks rt') = Some t' ∧ promoted t' e ∧ task_executionId t' = eid.
Proof.
  intros Hmax Hfresh Heid Hi Hq rt rt'. subst rt'. fold rt in Hi, Hq.
  destruct (run_fresh_used [] (newRuntime c) evs) as (used & Hc & Hs & Hsub).
  { apply coherent_new. } { apply saturated_new. } { exact Hfresh. }
  { intros id _. apply not_elem_of_nil. }
  fold rt in Hc, Hs.
  assert (Hnew : eid ∉ used).
  { intros Hu. destruct (Hsub eid Hu) as [Hn | Hin]; [by apply elem_of_nil in Hn | done]. }
  pose proof (run_reachable c evs) as Hreach. fold rt in Hreach.
  pose proof (reachable_config c rt Hreach) as Hcfg.
  pose proof (withinLimit_reachable c rt Hmax Hreach) as Hle. unfold withinLimit in Hle.
  assert (Hfull : limit rt ≤ Z.of_nat (size (running rt))).
  { apply Hs. by rewrite Hq. }
  assert (Hin : task_executionId t ∈ running rt).
  { eapply (proj1 (Forall_forall _ _) (coherent_tasks _ _ Hc)),
      list_elem_of_lookup_2, Hi. }
  pose proof (size_remove_elem _ _ Hin) as Hsz.
  pose proof (coherent_release _ _ _ _ Hc Hi) as Hc1.
  assert (Hreg : is_Some (lookupTool (orch rt) (name (tool e)))).
  { pose proof (coherent_queue _ _ Hc) as Hall. rewrite Hq in Hall.
    by apply Forall_inv in Hall. }
  destruct Hreg as [t' Ht'].
  rewrite finish_state. unfold processQueue.
  change (queue (release rt i t)) with (queue rt). rewrite Hq.
  rewrite bool_decide_eq_true_2 by (simpl; lia).
  unfold executeTool, lookupTool, atCapacity. simpl.
  unfold lookupTool in Ht'. rewrite Ht'.
  rewrite bool_decide_eq_false_2 by lia. simpl.
  assert (Hfr : eid ∉ running rt ∖ {[task_executionId t]}).
  { intros Hx. apply Hnew, (coherent_used _ _ Hc1), Hx. }
  rewrite (size_add_fresh _ _ Hfr).
  assert (Hlim : limit rt = maxConcurrent c) by (by rewrite Hcfg).
  split_and!; [done | lia | lia | |].
  - rewrite length_app, length_delete by (by eexists). simpl.
    apply lookup_lt_Some in Hi. lia.
  - eexists. split; [by rewrite last_snoc |]. by repeat split.
Qed.

Lemma freed_slot_is_reused_witness :
  0 ≤ maxConcurrent (sampleConfig 1) ∧
  freshIds waitingTrace ∧
  ("exec_4" ∉ omap eventId waitingTrace) ∧
  tasks (fst (run (newRuntime (sampleConfig 1)) waitingTrace)) !! 0%nat = Some taskA ∧
  executionQueue (orch (fst (run (newRuntime (sampleConfig 1)) waitingTrace)))
    = entryC :: [entryB] ∧
  executionQueue
    (orch (fst (finish (fst (run (newRuntime (sampleConfig 1)) waitingTrace)) 0 taskA
                  (Returned (probeResult true "Probe completed")) "exec_4")))
    = [entryB].
Proof.
  assert (Hmax : 0 ≤ maxConcurrent (sampleConfig 1)) by (simpl; lia).
  assert (Hf : freshIds waitingTrace).
  { unfold freshIds. apply (bool_decide_unpack _). vm_compute. exact I. }
  assert (Hn : "exec_4" ∉ omap eventId waitingTrace).
  { apply (bool_decide_unpack _). vm_compute. exact I. }
  assert (Hi : tasks (fst (run (newRuntime (sampleConfig 1)) waitingTrace)) !! 0%nat
               = Some taskA) by (vm_compute; reflexivity).
  assert (Hq : executionQueue (orch (fst (run (newRuntime (sampleConfig 1)) waitingTrace)))
               = entryC :: [entryB]) by (vm_compute; reflexivity).
  split; [exact Hmax |]. split; [exact Hf |]. split; [exact Hn |].
  split; [exact Hi |]. split; [exact Hq |].
  exact (proj1 (freed_slot_is_reused (sampleConfig 1) waitingTrace 0 taskA
                  (Returned (probeResult true "Probe completed")) "exec_4"
                  entryC [entryB] Hmax Hf Hn Hi Hq)).
Defined.
